(** * Verification of the kitealogo core: trading calendar, zone detector and
    proximity classifier (src/core/date_manager.py, src/core/zone_detector.py,
    src/core/execute_day.py).

    Prices are Python floats in the source; they are modelled here as exact
    rationals [Q].  Python exceptions are modelled by the [result] type below. *)

From Stdlib Require Import QArith Qabs Qminmax List String Ascii Bool Lia Arith ZArith Lqa.
Import ListNotations.

(** ** Python exceptions *)

Inductive exn : Type :=
| KeyError
| IndexError
| ZeroDivisionError
| OverflowError (msg : string)
| ValueError (msg : string).

Inductive result (A : Type) : Type :=
| Ok (a : A)
| Raise (e : exn).
Arguments Ok {A} a.
Arguments Raise {A} e.

Definition bind {A B} (r : result A) (k : A -> result B) : result B :=
  match r with
  | Ok a => k a
  | Raise e => Raise e
  end.

Notation "x <- c1 ;; c2" := (bind c1 (fun x => c2))
  (at level 61, c1 at next level, right associativity).

(** Python's [a < b] on floats. *)
Definition Qltb (a b : Q) : bool := negb (Qle_bool b a).

(** ** config.py *)

Module Config.
Definition TIMEFRAME : string := "15minute".
Definition ATR_MULTIPLIER : Q := 3 # 2.
Definition ZONE_CANDLES_MIN : nat := 2.
Definition ZONE_CANDLES_MAX : nat := 6.
Definition NEAR_ZONE_PERCENT : Q := 1 # 2.
End Config.

(** ** Records shared by the components *)

(** A zone dictionary, as built by [extract_zones] and read back from the
    database. *)
Record zone : Type := {
  symbol : string;
  fetch_date : string;
  timeframe : string;
  zone_type : string;
  zone_low : Q;
  zone_high : Q;
  impulse_strength : string;
  impulse_start_time : string;
  impulse_end_time : string
}.

(** ** execute_day.py: ExecuteDayMonitor *)

Record ExecuteDayMonitor : Type := {
  near_threshold : Q;
  far_threshold : Q
}.

(** [ExecuteDayMonitor.__init__]: the kite client and database handles are
    not used by the classifier and are left out. *)
Definition ExecuteDayMonitor_init : ExecuteDayMonitor := {|
  near_threshold := Config.NEAR_ZONE_PERCENT / 100;
  far_threshold := 3 # 2
|}.

(** The tuple [(status, closest_zone, distance_percent, reaction)].  The
    distance [None] stands for [float('inf')]. *)
Definition proximity := (string * option zone * option Q * string)%type.

Definition zone_mid (z : zone) : Q := (zone_low z + zone_high z) / 2.

(** [abs_distance_pct < abs(min_distance_pct)], with [None] as infinity. *)
Definition lt_min (a : Q) (m : option Q) : bool :=
  match m with
  | None => true
  | Some m => Qltb a (Qabs m)
  end.

(** The body of the [for zone in zones] loop of [_calculate_proximity];
    the loop state is [(status, closest_zone, min_distance_pct, reaction)]. *)
Fixpoint proximity_loop (self : ExecuteDayMonitor) (ltp : Q) (zones : list zone)
    (st : proximity) : result proximity :=
  match zones with
  | [] => Ok st
  | zone :: rest =>
      let zl := zone_low zone in
      let zh := zone_high zone in
      let zm := (zl + zh) / 2 in
      (* distance_from_mid = ((ltp - zone_mid) / zone_mid) * 100 *)
      if Qeq_bool zm 0 then Raise ZeroDivisionError else
      let distance_from_mid := ((ltp - zm) / zm) * 100 in
      if Qle_bool zl ltp && Qle_bool ltp zh then
        let status := if String.eqb (zone_type zone) "BULLISH"
                      then "INSIDE_BULLISH"%string else "INSIDE_BEARISH"%string in
        Ok (status, Some zone, Some distance_from_mid, "Holding"%string)
      else
        let abs_distance_pct := Qabs distance_from_mid in
        let '(_, _, min_distance_pct, _) := st in
        if lt_min abs_distance_pct min_distance_pct then
          let sr :=
            if Qle_bool abs_distance_pct (near_threshold self)
            then ("NEAR"%string, "First Touch"%string)
            else if Qltb (far_threshold self) abs_distance_pct
            then ("FAR"%string, "No Touch Yet"%string)
            else ("NEAR"%string, "No Touch Yet"%string) in
          proximity_loop self ltp rest
            (fst sr, Some zone, Some distance_from_mid, snd sr)
        else proximity_loop self ltp rest st
  end.

Definition _calculate_proximity (self : ExecuteDayMonitor) (ltp : Q)
    (zones : list zone) : result proximity :=
  match zones with
  | [] => Ok ("FAR"%string, None, Some 100, "No Touch Yet"%string)
  | _ => proximity_loop self ltp zones
           ("FAR"%string, None, None, "No Touch Yet"%string)
  end.

Record MonitoringRecord : Type := {
  mr_symbol : string;
  mr_ltp : Q;
  mr_zones : list zone;
  mr_status : string;
  mr_closest_zone : option zone;
  mr_distance_percent : option Q;
  mr_reaction : string;
  mr_fetch_date : string;
  mr_execute_date : string
}.

Definition str_in (s : string) (l : list string) : bool :=
  existsb (String.eqb s) l.

Fixpoint get_alerts (monitoring_data : list MonitoringRecord) : list MonitoringRecord :=
  match monitoring_data with
  | [] => []
  | data :: rest =>
      if str_in (mr_status data) ["INSIDE_BULLISH"; "INSIDE_BEARISH"; "NEAR"]%string then
        if str_in (mr_reaction data) ["First Touch"; "Holding"]%string then
          data :: get_alerts rest
        else get_alerts rest
      else get_alerts rest
  end.

(** ** date_manager.py: DateManager

    A [datetime] at midnight is modelled by its proleptic Gregorian ordinal
    ([date.toordinal()], 0001-01-01 is 1), as in CPython's [datetime] module,
    whose [_ymd2ord] and [_ord2ymd] are transcribed below. *)

Module DateManager.
Open Scope Z_scope.

Definition MAXORDINAL : Z := 3652059.  (* date(9999, 12, 31).toordinal() *)

Definition _is_leap (year : Z) : bool :=
  (year mod 4 =? 0) && (negb (year mod 100 =? 0) || (year mod 400 =? 0)).

Definition _DAYS_IN_MONTH (m : Z) : Z :=
  match m with
  | 1 => 31 | 2 => 28 | 3 => 31 | 4 => 30 | 5 => 31 | 6 => 30
  | 7 => 31 | 8 => 31 | 9 => 30 | 10 => 31 | 11 => 30 | 12 => 31
  | _ => -1
  end.

Definition _DAYS_BEFORE_MONTH (m : Z) : Z :=
  match m with
  | 1 => 0 | 2 => 31 | 3 => 59 | 4 => 90 | 5 => 120 | 6 => 151
  | 7 => 181 | 8 => 212 | 9 => 243 | 10 => 273 | 11 => 304 | 12 => 334
  | _ => -1
  end.

Definition _days_in_month (year month : Z) : Z :=
  if (month =? 2) && _is_leap year then 29 else _DAYS_IN_MONTH month.

Definition _days_before_year (year : Z) : Z :=
  let y := year - 1 in y * 365 + y / 4 - y / 100 + y / 400.

Definition _days_before_month (year month : Z) : Z :=
  _DAYS_BEFORE_MONTH month + (if (month >? 2) && _is_leap year then 1 else 0).

Definition _ymd2ord (year month day : Z) : Z :=
  _days_before_year year + _days_before_month year month + day.

Definition _DI400Y : Z := 146097.
Definition _DI100Y : Z := 36524.
Definition _DI4Y : Z := 1461.

Definition _ord2ymd (n0 : Z) : Z * Z * Z :=
  let n := n0 - 1 in
  let n400 := n / _DI400Y in let n := n mod _DI400Y in
  let year := n400 * 400 + 1 in
  let n100 := n / _DI100Y in let n := n mod _DI100Y in
  let n4 := n / _DI4Y in let n := n mod _DI4Y in
  let n1 := n / 365 in let n := n mod 365 in
  let year := year + n100 * 100 + n4 * 4 + n1 in
  if (n1 =? 4) || (n100 =? 4) then (year - 1, 12, 31) else
  let leapyear := (n1 =? 3) && (negb (n4 =? 24) || (n100 =? 3)) in
  let month := Z.shiftr (n + 50) 5 in
  let preceding := _DAYS_BEFORE_MONTH month
                   + (if (month >? 2) && leapyear then 1 else 0) in
  let '(month, preceding) :=
    if preceding >? n then
      (month - 1, preceding - (_DAYS_IN_MONTH (month - 1)
                               + (if (month - 1 =? 2) && leapyear then 1 else 0)))
    else (month, preceding) in
  (year, month, n - preceding + 1).

(** [date.weekday()]: Monday is 0. *)
Definition weekday (d : Z) : Z := (d + 6) mod 7.

(** [date - timedelta(days=1)], which raises below 0001-01-01. *)
Definition sub_day (d : Z) : result Z :=
  if d - 1 <? 1 then Raise (OverflowError "date value out of range") else Ok (d - 1).

(** [strftime('%Y-%m-%d')] as CPython computes it with the C library's
    [strftime] on glibc: [%m] and [%d] have two digits, and [%Y] is the year
    in decimal without leading zeros (year 5 gives "5", year 2026 "2026"). *)
Definition digit (k : Z) : ascii := ascii_of_nat (48 + Z.to_nat k).

Definition pad2 (v : Z) : string :=
  String (digit (v / 10)) (String (digit (v mod 10)) EmptyString).

Definition pad4 (v : Z) : string :=
  String (digit (v / 1000)) (String (digit ((v / 100) mod 10))
    (String (digit ((v / 10) mod 10)) (String (digit (v mod 10)) EmptyString))).

Definition year_str (y : Z) : string :=
  if y <? 10 then String (digit y) EmptyString
  else if y <? 100 then pad2 y
  else if y <? 1000 then String (digit (y / 100)) (pad2 (y mod 100))
  else pad4 y.

Definition strftime (d : Z) : string :=
  let '(y, m, dd) := _ord2ymd d in
  (year_str y ++ "-" ++ pad2 m ++ "-" ++ pad2 dd)%string.

(** [datetime.strptime(s, '%Y-%m-%d')].  CPython compiles the format to the
    regular expression
    [(?P<Y>\d\d\d\d)-(?P<m>1[0-2]|0[1-9]|[1-9])-(?P<d>3[01]|[12]\d|0[1-9]|[1-9]| [1-9])],
    matches it at the start of the string with backtracking over the
    alternatives, requires the match to cover the whole string, and then
    builds the date. Strings are ASCII here. *)
Definition in_range (lo hi : nat) (c : ascii) : bool :=
  let n := nat_of_ascii c in (lo <=? n)%nat && (n <=? hi)%nat.

Definition is_digit : ascii -> bool := in_range 48 57.
Definition is_char (k : nat) : ascii -> bool := in_range k k.

(** One regex alternative: a sequence of character classes. *)
Fixpoint match_seq (ps : list (ascii -> bool)) (s : string) : option (string * string) :=
  match ps with
  | [] => Some (EmptyString, s)
  | p :: ps' =>
      match s with
      | String c r =>
          if p c then
            match match_seq ps' r with
            | Some (t, rest) => Some (String c t, rest)
            | None => None
            end
          else None
      | EmptyString => None
      end
  end.

(** Alternatives tried in order; the continuation [k] is the rest of the
    pattern, and a failing continuation backtracks to the next alternative. *)
Fixpoint try_alts {A} (alts : list (list (ascii -> bool))) (s : string)
    (k : string -> string -> option A) : option A :=
  match alts with
  | [] => None
  | a :: alts' =>
      match match_seq a s with
      | Some (t, rest) =>
          match k t rest with
          | Some v => Some v
          | None => try_alts alts' s k
          end
      | None => try_alts alts' s k
      end
  end.

Definition Y_alts : list (list (ascii -> bool)) :=
  [[is_digit; is_digit; is_digit; is_digit]].
Definition m_alts : list (list (ascii -> bool)) :=
  [[is_char 49; in_range 48 50]; [is_char 48; in_range 49 57]; [in_range 49 57]].
Definition d_alts : list (list (ascii -> bool)) :=
  [[is_char 51; in_range 48 49]; [in_range 49 50; is_digit];
   [is_char 48; in_range 49 57]; [in_range 49 57]; [is_char 32; in_range 49 57]].
Definition dash_alts : list (list (ascii -> bool)) := [[is_char 45]].

(** [format_regex.match(s)]: the texts of the groups Y, m, d and the
    unmatched remainder. *)
Definition format_match (s : string) : option (string * string * string * string) :=
  try_alts Y_alts s (fun yt r1 =>
  try_alts dash_alts r1 (fun _ r2 =>
  try_alts m_alts r2 (fun mt r3 =>
  try_alts dash_alts r3 (fun _ r4 =>
  try_alts d_alts r4 (fun dt r5 => Some (yt, mt, dt, r5)))))).

(** [int(text)] of a matched group (digits, possibly a leading blank). *)
Fixpoint int_of_acc (acc : Z) (s : string) : Z :=
  match s with
  | EmptyString => acc
  | String c r =>
      if is_digit c then int_of_acc (acc * 10 + (Z.of_nat (nat_of_ascii c) - 48)) r
      else int_of_acc acc r
  end.
Definition int_of (s : string) : Z := int_of_acc 0 s.

Definition strptime (s : string) : result Z :=
  match format_match s with
  | None => Raise (ValueError ("time data '" ++ s ++ "' does not match format '%Y-%m-%d'")%string)
  | Some (yt, mt, dt, rest) =>
      if negb (String.eqb rest "") then
        Raise (ValueError ("unconverted data remains: " ++ rest)%string)
      else
        let year := int_of yt in
        let month := int_of mt in
        let day := int_of dt in
        if year <? 1 then Raise (ValueError "year 0 is out of range")
        else if _days_in_month year month <? day then
          Raise (ValueError "day is out of range for month")
        else Ok (_ymd2ord year month day)
  end.

Definition NSE_HOLIDAYS_2026 : list string :=
  ["2026-01-26"; "2026-03-03"; "2026-03-30"; "2026-04-02"; "2026-04-03";
   "2026-04-14"; "2026-05-01"; "2026-08-15"; "2026-08-19"; "2026-10-02";
   "2026-10-20"; "2026-11-04"; "2026-11-05"; "2026-11-25"; "2026-12-25"]%string.

Definition is_trading_day (date : Z) : bool :=
  if 5 <=? weekday date then false
  else negb (str_in (strftime date) NSE_HOLIDAYS_2026).

(** The [for _ in range(max_lookback)] loop and the fallback after it. *)
Fixpoint lookback (date : Z) (fuel : nat) (current : Z) : result Z :=
  match fuel with
  | O => sub_day date
  | S k =>
      if is_trading_day current then Ok current
      else current' <- sub_day current ;; lookback date k current'
  end.

Definition get_previous_trading_day (date : Z) : result Z :=
  current <- sub_day date ;; lookback date 10 current.

(** The [while trading_days_back < 2] loop. *)
Fixpoint go_back (k : nat) (current : Z) : result Z :=
  match k with
  | O => Ok current
  | S k' => current' <- get_previous_trading_day current ;; go_back k' current'
  end.

Definition calculate_fetch_day (execute_day : string) : result string :=
  execute_dt <- strptime execute_day ;;
  current <- go_back 2 execute_dt ;;
  Ok (strftime current).

(** [validate_execute_day]; [today] is [datetime.now()] at midnight. Only
    [ValueError] is caught. *)
Definition validate_execute_day (today : Z) (execute_day : string)
    : result (bool * option string * option string) :=
  let body :=
    execute_dt <- strptime execute_day ;;
    fetch_day <- calculate_fetch_day execute_day ;;
    fetch_dt <- strptime fetch_day ;;
    if today <? fetch_dt then
      Ok (false, None, Some ("Fetch Day (" ++ fetch_day
                              ++ ") is in the future. No historical data available.")%string)
    else Ok (true, Some fetch_day, None) in
  match body with
  | Raise (ValueError e) => Ok (false, None, Some ("Invalid date format: " ++ e)%string)
  | r => r
  end.

(** [current += timedelta(days=1)], which raises past 9999-12-31. *)
Definition add_day (d : Z) : result Z :=
  if MAXORDINAL <? d + 1 then Raise (OverflowError "date value out of range"%string) else Ok (d + 1).

(** The [while current <= end_dt] loop of [get_trading_days_between]; it runs
    at most [end_dt - start_dt + 1] times, which is the [fuel] it is given. *)
Fixpoint days_between_loop (fuel : nat) (current end_dt : Z) : result (list string) :=
  match fuel with
  | O => Ok []
  | S k =>
      if current <=? end_dt then
        let here := if is_trading_day current then [strftime current] else [] in
        next <- add_day current ;;
        rest <- days_between_loop k next end_dt ;;
        Ok (here ++ rest)
      else Ok []
  end.

Definition get_trading_days_between (start_date end_date : string) : result (list string) :=
  start_dt <- strptime start_date ;;
  end_dt <- strptime end_date ;;
  days_between_loop (S (Z.to_nat (end_dt - start_dt))) start_dt end_dt.

Close Scope Z_scope.
End DateManager.

(** ** zone_detector.py: ZoneDetector *)

Module ZoneDetector.

(** A row of the candle DataFrame (after [reset_index(drop=True)] the row
    label is the position in the list). *)
Record candle : Type := {
  date : string;
  open_ : Q;
  high : Q;
  low : Q;
  close : Q;
  volume : Q
}.

Record ZoneDetector : Type := {
  atr_multiplier : Q;
  zone_candles_min : nat;
  zone_candles_max : nat
}.

(** [ZoneDetector(atr_multiplier=config.Config.ATR_MULTIPLIER, ...)] as built
    by [FetchDayProcessor]; these are also the constructor defaults. *)
Definition ZoneDetector_default : ZoneDetector := {|
  atr_multiplier := Config.ATR_MULTIPLIER;
  zone_candles_min := Config.ZONE_CANDLES_MIN;
  zone_candles_max := Config.ZONE_CANDLES_MAX
|}.

Definition qsum (l : list Q) : Q := fold_left Qplus l 0.

(** [Series.mean()]; the empty series (NaN in pandas) is [None]. *)
Definition qmean (l : list Q) : option Q :=
  match l with
  | [] => None
  | _ => Some (qsum l / inject_Z (Z.of_nat (List.length l)))
  end.

(** [Series.min()] and [Series.max()]; [None] is the NaN of an empty series. *)
Definition qmin (l : list Q) : option Q :=
  match l with
  | [] => None
  | x :: r => Some (fold_left Qmin r x)
  end.

Definition qmax (l : list Q) : option Q :=
  match l with
  | [] => None
  | x :: r => Some (fold_left Qmax r x)
  end.

(** [df.loc[i, col]]: a missing label raises [KeyError]. *)
Definition loc (df : list candle) (i : nat) : result candle :=
  match nth_error df i with
  | Some c => Ok c
  | None => Raise KeyError
  end.

(** [df.loc[i:j]]: label slicing, both ends included. *)
Definition loc_slice (df : list candle) (i j : nat) : list candle :=
  firstn (S j - i) (skipn i df).

(** [df.iloc[a:b]]: positional slicing, end excluded. *)
Definition iloc_slice (df : list candle) (a b : nat) : list candle :=
  firstn (b - a) (skipn a df).

(** [df.iloc[0]] and [df.iloc[-1]]. *)
Definition iloc_first (df : list candle) : result candle :=
  match df with
  | c :: _ => Ok c
  | [] => Raise IndexError
  end.

Definition iloc_last (df : list candle) : result candle :=
  match rev df with
  | c :: _ => Ok c
  | [] => Raise IndexError
  end.

(** The true range of a row given the previous row; for the first row the
    shifted close is NaN and [max(axis=1)] skips it. *)
Definition true_range (prev : option candle) (c : candle) : Q :=
  match prev with
  | None => high c - low c
  | Some p => Qmax (high c - low c)
                (Qmax (Qabs (high c - close p)) (Qabs (low c - close p)))
  end.

Fixpoint true_ranges (prev : option candle) (df : list candle) : list Q :=
  match df with
  | [] => []
  | c :: r => true_range prev c :: true_ranges (Some c) r
  end.

(** [calculate_atr] on a nonempty frame: the last value of the
    [period]-row rolling mean of the true range, or [mean(high) - mean(low)]
    when that value is NaN (fewer than [period] rows, or [period = 0], whose
    empty window has a NaN mean).  On the empty frame [.iloc[-1]] raises
    [IndexError]; the call with that exception is [calculate_atr_checked]
    below, and the value 0 given here to the empty frame is never returned
    by the code.  [extract_zones] only calls it with at least 20 rows. *)
Definition calculate_atr (df : list candle) (period : nat) : Q :=
  let tr := true_ranges None df in
  if ((0 <? period) && (period <=? List.length tr))%nat then
    match qmean (skipn (List.length tr - period) tr) with
    | Some a => a
    | None => 0
    end
  else
    match qmean (map high df), qmean (map low df) with
    | Some h, Some l => h - l
    | _, _ => 0
    end.

(** The method call [self.calculate_atr(df, period)], with the [IndexError]
    of [true_range.rolling(period).mean().iloc[-1]] on the empty frame. *)
Definition calculate_atr_checked (df : list candle) (period : nat) : result Q :=
  match df with
  | [] => Raise IndexError
  | _ => Ok (calculate_atr df period)
  end.

Record impulse : Type := {
  direction : string;
  start_idx : nat;
  end_idx : nat;
  strength : string;
  start_time : string;
  end_time : string
}.

(** The index pairs of the two nested loops of [find_major_impulse], in
    scan order:
    [for i in range(len(df) - 3): for j in range(i + 3, min(i + 20, len(df)))]. *)
Definition scan_pairs (n : nat) : list (nat * nat) :=
  flat_map (fun i => map (fun j => (i, j)) (seq (i + 3) (Nat.min (i + 20) n - (i + 3))))
           (seq 0 (n - 3)).

(** The filter applied to one pair: [None] is a [continue], [Some (direction,
    net_move)] a surviving candidate.  A NaN extreme (empty slice) compares
    false and lets the pair through. *)
Definition eval_pair (self : ZoneDetector) (df : list candle) (atr : Q) (i j : nat)
    : result (option (string * Q)) :=
  ci <- loc df i ;;
  cj <- loc df j ;;
  let price_start := close ci in
  let price_end := close cj in
  let net_move := Qabs (price_end - price_start) in
  if Qltb net_move (atr_multiplier self * atr) then Ok None else
  if Qltb price_start price_end then
    match qmin (map low (loc_slice df i j)) with
    | Some lowest_in_range =>
        let pullback := price_start - lowest_in_range in
        if Qltb (net_move * (3 # 10)) pullback then Ok None
        else Ok (Some ("BULLISH"%string, net_move))
    | None => Ok (Some ("BULLISH"%string, net_move))
    end
  else
    match qmax (map high (loc_slice df i j)) with
    | Some highest_in_range =>
        let pullback := highest_in_range - price_start in
        if Qltb (net_move * (3 # 10)) pullback then Ok None
        else Ok (Some ("BEARISH"%string, net_move))
    | None => Ok (Some ("BEARISH"%string, net_move))
    end.

(** One iteration of the loop body; the state is [(best_impulse, max_move)]. *)
Definition impulse_step (self : ZoneDetector) (df : list candle) (atr : Q)
    (acc : option impulse * Q) (ij : nat * nat) : result (option impulse * Q) :=
  let '(i, j) := ij in
  v <- eval_pair self df atr i j ;;
  match v with
  | None => Ok acc
  | Some (dir, net_move) =>
      if Qltb (snd acc) net_move then
        ci <- loc df i ;;
        cj <- loc df j ;;
        Ok (Some {| direction := dir; start_idx := i; end_idx := j;
                    strength := if Qltb (2 * atr) net_move then "HIGH"%string
                                else "MEDIUM"%string;
                    start_time := date ci; end_time := date cj |}, net_move)
      else Ok acc
  end.

Fixpoint fold_m {A B} (f : A -> B -> result A) (l : list B) (a : A) : result A :=
  match l with
  | [] => Ok a
  | b :: r => a' <- f a b ;; fold_m f r a'
  end.

Definition find_major_impulse (self : ZoneDetector) (df : list candle) (atr : Q)
    : result (option impulse) :=
  r <- fold_m (impulse_step self df atr) (scan_pairs (List.length df)) (None, 0) ;;
  Ok (fst r).

Record origin_zone : Type := {
  oz_zone_low : Q;
  oz_zone_high : Q;
  candle_count : nat
}.

(** The candles of the window of [lookback] rows before [impulse_start_idx]:
    [df.iloc[impulse_start_idx - lookback : impulse_start_idx]]. *)
Definition zone_window (df : list candle) (impulse_start_idx lookback : nat) : list candle :=
  iloc_slice df (impulse_start_idx - lookback) impulse_start_idx.

(** The body of the [for lookback in ...] loop for one window size. *)
Definition check_window (df : list candle) (impulse_start_idx lookback : nat)
    : result (option origin_zone) :=
  let zone_candles := zone_window df impulse_start_idx lookback in
  match qmin (map low zone_candles), qmax (map high zone_candles),
        qmean (map (fun c => high c - low c) zone_candles) with
  | Some zone_low, Some zone_high, Some avg_candle_range =>
      let zone_range := zone_high - zone_low in
      if Qltb zone_range (avg_candle_range * (5 # 2)) then
        first <- iloc_first zone_candles ;;
        last <- iloc_last zone_candles ;;
        let net_progress := Qabs (close last - close first) in
        if Qltb net_progress (zone_range * (1 # 2)) then
          Ok (Some {| oz_zone_low := zone_low; oz_zone_high := zone_high;
                      candle_count := lookback |})
        else Ok None
      else Ok None
  | _, _, _ => Ok None   (* NaN comparisons are False *)
  end.

Fixpoint origin_loop (df : list candle) (impulse_start_idx : nat) (lookbacks : list nat)
    : result (option origin_zone) :=
  match lookbacks with
  | [] => Ok None
  | lb :: rest =>
      r <- check_window df impulse_start_idx lb ;;
      match r with
      | Some z => Ok (Some z)
      | None => origin_loop df impulse_start_idx rest
      end
  end.

(** [range(zone_candles_min, min(zone_candles_max + 1, impulse_start_idx + 1))] *)
Definition lookbacks (self : ZoneDetector) (impulse_start_idx : nat) : list nat :=
  seq (zone_candles_min self)
      (Nat.min (zone_candles_max self + 1) (impulse_start_idx + 1) - zone_candles_min self).

Definition find_origin_zone (self : ZoneDetector) (df : list candle) (impulse_start_idx : nat)
    : result (option origin_zone) :=
  if (impulse_start_idx <? zone_candles_min self)%nat then Ok None
  else origin_loop df impulse_start_idx (lookbacks self impulse_start_idx).

Definition validate_zone (df : list candle) (zone : origin_zone) (imp : impulse)
    : result bool :=
  let impulse_end_idx := end_idx imp in
  if (List.length df <=? impulse_end_idx)%nat then Ok false else
  row <- loc df impulse_end_idx ;;
  let price_after_impulse := close row in
  let zm := (oz_zone_low zone + oz_zone_high zone) / 2 in
  let distance := Qabs (price_after_impulse - zm) in
  let zone_range := oz_zone_high zone - oz_zone_low zone in
  if Qltb distance (zone_range * 2) then Ok false else Ok true.

Definition extract_zones (self : ZoneDetector) (df : list candle)
    (symbol_ fetch_date_ timeframe_ : string) : result (list zone) :=
  if (List.length df <? 20)%nat then Ok [] else
  let atr := calculate_atr df 14 in
  imp <- find_major_impulse self df atr ;;
  match imp with
  | None => Ok []
  | Some imp =>
      oz <- find_origin_zone self df (start_idx imp) ;;
      match oz with
      | None => Ok []
      | Some oz =>
          ok <- validate_zone df oz imp ;;
          if negb ok then Ok [] else
          Ok [{| symbol := symbol_; fetch_date := fetch_date_; timeframe := timeframe_;
                 zone_type := direction imp;
                 zone_low := oz_zone_low oz; zone_high := oz_zone_high oz;
                 impulse_strength := strength imp;
                 impulse_start_time := start_time imp;
                 impulse_end_time := end_time imp |}]
      end
  end.

End ZoneDetector.

(** ** execute_day.py: ExecuteDayMonitor.get_monitoring_data *)

Module Monitoring.
Import DateManager.

(** [price_data.get(symbol, 0)] on a price dictionary. *)
Fixpoint dict_get (d : list (string * Q)) (k : string) (default : Q) : Q :=
  match d with
  | [] => default
  | (k', v) :: r => if String.eqb k k' then v else dict_get r k default
  end.

(** The dictionary returned by [get_monitoring_data]. *)
Inductive monitoring_result : Type :=
| MonitoringFailure (error : option string)
| MonitoringSuccess (data : list MonitoringRecord) (fetch_day execute_day : string).

(** Step 4 of [get_monitoring_data]: one record per symbol with a nonzero
    price, built from [_calculate_proximity]. *)
Fixpoint build_monitoring_data (self : ExecuteDayMonitor) (zones_of : string -> list zone)
    (price_data : list (string * Q)) (fetch_day execute_day : string)
    (symbols : list string) : result (list MonitoringRecord) :=
  match symbols with
  | [] => Ok []
  | symbol :: rest =>
      let zones := zones_of symbol in
      let ltp := dict_get price_data symbol 0 in
      if Qeq_bool ltp 0 then build_monitoring_data self zones_of price_data fetch_day execute_day rest
      else
        p <- _calculate_proximity self ltp zones ;;
        let '(status, closest_zone, distance_pct, reaction) := p in
        data <- build_monitoring_data self zones_of price_data fetch_day execute_day rest ;;
        Ok ({| mr_symbol := symbol; mr_ltp := ltp; mr_zones := zones; mr_status := status;
               mr_closest_zone := closest_zone; mr_distance_percent := distance_pct;
               mr_reaction := reaction; mr_fetch_date := fetch_day;
               mr_execute_date := execute_day |} :: data)
  end.

(** [get_monitoring_data]. [today] is [datetime.now()] at midnight; the
    database after step 2 is [zones_of] ([get_zones_for_symbol] for the Fetch
    Day); [ltp_data] is what [kite.get_ltp(symbols)] returns and
    [historical_prices] what [_get_historical_prices(symbols, execute_day)]
    returns. A valid result of [validate_execute_day] always carries a Fetch
    Day, so the pair [(true, None)] does not occur. *)
Definition get_monitoring_data (self : ExecuteDayMonitor) (today : Z)
    (zones_of : string -> list zone) (ltp_data historical_prices : list (string * Q))
    (execute_day : string) (symbols : list string) : result monitoring_result :=
  v <- validate_execute_day today execute_day ;;
  let '(is_valid, fetch_day, error) := v in
  match is_valid, fetch_day with
  | true, Some fetch_day =>
      execute_dt <- strptime execute_day ;;
      let price_data := if Z.eqb execute_dt today then ltp_data else historical_prices in
      data <- build_monitoring_data self zones_of price_data fetch_day execute_day symbols ;;
      Ok (MonitoringSuccess data fetch_day execute_day)
  | _, _ => Ok (MonitoringFailure error)
  end.

End Monitoring.

(** ** app.py: the [symbols] query parameter of [execute_day_monitor] *)

Module App.
Local Open Scope string_scope.
Local Open Scope nat_scope.

(** Python's [str.isspace] on a 7-bit character: tab, newline, vertical tab,
    form feed, carriage return, the separators 0x1c-0x1f and space. *)
Definition is_space (c : ascii) : bool :=
  let n := nat_of_ascii c in ((9 <=? n) && (n <=? 13)) || ((28 <=? n) && (n <=? 32)).

(** [str.lstrip()], [str.rstrip()] and [str.strip()] with no argument. *)
Fixpoint lstrip (s : string) : string :=
  match s with
  | EmptyString => EmptyString
  | String c r => if is_space c then lstrip r else s
  end.

Fixpoint rstrip (s : string) : string :=
  match s with
  | EmptyString => EmptyString
  | String c r =>
      let r' := rstrip r in
      if is_space c && String.eqb r' EmptyString then EmptyString else String c r'
  end.

Definition strip (s : string) : string := rstrip (lstrip s).

(** [str.upper()] on a 7-bit character. *)
Definition upper_char (c : ascii) : ascii :=
  let n := nat_of_ascii c in
  if (97 <=? n) && (n <=? 122) then ascii_of_nat (n - 32) else c.

Fixpoint upper (s : string) : string :=
  match s with
  | EmptyString => EmptyString
  | String c r => String (upper_char c) (upper r)
  end.

(** [str.split(sep)] with a one-character separator: [''.split(',')] is
    [['']] and adjacent separators give empty fields. *)
Fixpoint split (sep : ascii) (s : string) : list string :=
  match s with
  | EmptyString => [EmptyString]
  | String c r =>
      if Ascii.eqb c sep then EmptyString :: split sep r
      else match split sep r with
           | h :: t => String c h :: t
           | [] => [String c EmptyString]
           end
  end.

(** [execute_day_monitor]:
    [[s.strip().upper() for s in symbols_param.split(',') if s.strip()]]. *)
Definition parse_symbols (symbols_param : string) : list string :=
  map (fun s => upper (strip s))
    (filter (fun s => negb (String.eqb (strip s) EmptyString)) (split "," symbols_param)).

(** The symbols [execute_day_monitor] monitors (lines 160-165): the parsed
    [symbols] parameter when it is truthy (a nonempty string), otherwise the
    [symbol] fields of [db_manager.get_decode_list(execute_day)], given here
    as [decode_list_symbols]. *)
Definition execute_day_monitor_symbols (symbols_param : string)
    (decode_list_symbols : list string) : list string :=
  if String.eqb symbols_param "" then decode_list_symbols
  else parse_symbols symbols_param.

(** Python's [sep.join(xs)]. *)
Fixpoint join (sep : string) (xs : list string) : string :=
  match xs with
  | [] => ""
  | [x] => x
  | x :: r => x ++ sep ++ join sep r
  end.

(** The [symbols] column of a watchlist: [save_watchlist] stores
    [','.join(symbols)] and [load_watchlist] returns
    [watchlist['symbols'].split(',')]. *)
Definition save_watchlist_symbols (symbols : list string) : string := join "," symbols.

Definition load_watchlist_symbols (stored : string) : list string := split "," stored.

End App.

(** ** Concrete inputs used by the examples below *)

Module Samples.
Import ZoneDetector.

Definition mk (h l c : Q) : candle :=
  {| date := "t"; open_ := c; high := h; low := l; close := c; volume := 0 |}.

(** A balanced range around 100 (rows 0-3), a rise to 200 (rows 4-6), a
    fall back to 100 on row 7 and a flat tail (rows 8-24). *)
Definition df_c2 : list candle :=
  [mk 101 99 (201 # 2); mk 101 99 (201 # 2); mk 101 99 (201 # 2); mk 101 99 100;
   mk 131 100 130; mk 161 130 160; mk 201 160 200; mk (401 # 2) (199 # 2) 100]
  ++ repeat (mk 101 99 100) 17.

(** The impulse, the origin zone and the zone found on [df_c2]. *)
Definition imp_c2 : impulse :=
  {| direction := "BULLISH"; start_idx := 3; end_idx := 6; strength := "HIGH";
     start_time := "t"; end_time := "t" |}.

Definition oz_c2 : origin_zone := {| oz_zone_low := 99; oz_zone_high := 101; candle_count := 2 |}.

Definition zone_c2 : zone :=
  {| symbol := "X"; fetch_date := "2026-01-28"; timeframe := "15minute";
     zone_type := "BULLISH"; zone_low := 99; zone_high := 101; impulse_strength := "HIGH";
     impulse_start_time := "t"; impulse_end_time := "t" |}.

(** Four equal candles. *)
Definition flat4 : list candle := repeat (mk 100 100 100) 4.

End Samples.

(** * Properties *)

(** ** Python comparisons on rationals *)

Lemma Qltb_iff a b : Qltb a b = true <-> a < b.
Proof.
  unfold Qltb. rewrite negb_true_iff. split; intro H.
  - apply Qnot_le_lt. intro H'. apply Qle_bool_iff in H'. congruence.
  - destruct (Qle_bool b a) eqn:E; [|reflexivity].
    apply Qle_bool_iff in E. exfalso. apply (Qlt_not_le _ _ H E).
Qed.

Lemma Qltb_false a b : Qltb a b = false <-> b <= a.
Proof.
  unfold Qltb. rewrite negb_false_iff. apply Qle_bool_iff.
Qed.

Lemma Qle_bool_false a b : Qle_bool a b = false <-> b < a.
Proof.
  split; intro H.
  - apply Qnot_le_lt. intro H'. apply Qle_bool_iff in H'. congruence.
  - destruct (Qle_bool a b) eqn:E; [|reflexivity].
    apply Qle_bool_iff in E. exfalso. apply (Qlt_not_le _ _ H E).
Qed.

(** ** The proximity classifier *)

Module Proximity.

Definition mk_zone (ty : string) (lo hi : Q) : zone :=
  {| symbol := "X"; fetch_date := "2026-01-28"; timeframe := Config.TIMEFRAME;
     zone_type := ty; zone_low := lo; zone_high := hi;
     impulse_strength := "MANUAL"; impulse_start_time := ""; impulse_end_time := "" |}.

Lemma loop_inside self ltp z rest st :
  ~ zone_mid z == 0 ->
  zone_low z <= ltp <= zone_high z ->
  proximity_loop self ltp (z :: rest) st =
    Ok ((if String.eqb (zone_type z) "BULLISH" then "INSIDE_BULLISH" else "INSIDE_BEARISH")%string,
        Some z, Some (((ltp - zone_mid z) / zone_mid z) * 100), "Holding"%string).
Proof.
  intros Hm [Hl Hh]. unfold zone_mid in *. simpl.
  destruct (Qeq_bool _ 0) eqn:E.
  - apply Qeq_bool_iff in E. contradiction.
  - apply Qle_bool_iff in Hl. apply Qle_bool_iff in Hh. rewrite Hl, Hh. reflexivity.
Qed.

Lemma loop_skip self ltp z rest st :
  ~ zone_mid z == 0 ->
  ~ (zone_low z <= ltp <= zone_high z) ->
  exists st', proximity_loop self ltp (z :: rest) st = proximity_loop self ltp rest st'.
Proof.
  intros Hm Hin. unfold zone_mid in *. simpl.
  destruct (Qeq_bool _ 0) eqn:E.
  - apply Qeq_bool_iff in E. contradiction.
  - destruct (Qle_bool (zone_low z) ltp && Qle_bool ltp (zone_high z)) eqn:C.
    + apply andb_true_iff in C. destruct C as [C1 C2].
      apply Qle_bool_iff in C1. apply Qle_bool_iff in C2. tauto.
    + destruct st as [[[s c] m] r].
      destruct (lt_min _ m); eexists; reflexivity.
Qed.

Lemma loop_first_inside self ltp pre z post :
  (forall z', In z' pre -> ~ (zone_low z' <= ltp <= zone_high z')) ->
  zone_low z <= ltp <= zone_high z ->
  (forall z', In z' (pre ++ [z]) -> ~ zone_mid z' == 0) ->
  forall st,
  proximity_loop self ltp (pre ++ z :: post) st =
    Ok ((if String.eqb (zone_type z) "BULLISH" then "INSIDE_BULLISH" else "INSIDE_BEARISH")%string,
        Some z, Some (((ltp - zone_mid z) / zone_mid z) * 100), "Holding"%string).
Proof.
  induction pre as [|z0 pre IH]; intros Hpre Hz Hmid st; simpl.
  - apply loop_inside; auto. apply Hmid. simpl. auto.
  - destruct (loop_skip self ltp z0 (pre ++ z :: post) st) as [st' E].
    + apply Hmid. simpl. auto.
    + apply Hpre. simpl. auto.
    + simpl in E. rewrite E. apply IH; auto.
      * intros z' H. apply Hpre. simpl. auto.
      * intros z' H. apply Hmid. simpl. auto.
Qed.

(** C4 (amended): the classifier returns on the first zone of the list that
    contains [ltp], with status INSIDE_BULLISH or INSIDE_BEARISH by its
    zone_type, reaction "Holding", that zone and its signed distance,
    whatever follows it, provided no zone up to that one has midpoint 0 (the
    midpoint is divided by before containment is tested). *)
Theorem C4_first_containing_zone_wins (self : ExecuteDayMonitor) (ltp : Q)
    (pre : list zone) (z : zone) (post : list zone) :
  (forall z', In z' pre -> ~ (zone_low z' <= ltp <= zone_high z')) ->
  zone_low z <= ltp <= zone_high z ->
  (forall z', In z' (pre ++ [z]) -> ~ zone_mid z' == 0) ->
  _calculate_proximity self ltp (pre ++ z :: post) =
    Ok ((if String.eqb (zone_type z) "BULLISH" then "INSIDE_BULLISH" else "INSIDE_BEARISH")%string,
        Some z, Some (((ltp - zone_mid z) / zone_mid z) * 100), "Holding"%string).
Proof.
  intros Hpre Hz Hmid. unfold _calculate_proximity.
  destruct (pre ++ z :: post) eqn:E.
  - destruct pre; discriminate.
  - rewrite <- E. apply loop_first_inside; auto.
Qed.

Lemma C4_first_containing_zone_wins_witness :
  (forall z', In z' [mk_zone "BEARISH" 800 820] ->
     ~ (zone_low z' <= 710 <= zone_high z')) /\
  zone_low (mk_zone "BULLISH" 700 720) <= 710 <= zone_high (mk_zone "BULLISH" 700 720) /\
  (forall z', In z' ([mk_zone "BEARISH" 800 820] ++ [mk_zone "BULLISH" 700 720]) ->
     ~ zone_mid z' == 0) /\
  _calculate_proximity ExecuteDayMonitor_init 710
    ([mk_zone "BEARISH" 800 820] ++ mk_zone "BULLISH" 700 720 :: [mk_zone "BULLISH" 705 712]) =
    Ok ("INSIDE_BULLISH"%string, Some (mk_zone "BULLISH" 700 720),
        Some (((710 - zone_mid (mk_zone "BULLISH" 700 720)) / zone_mid (mk_zone "BULLISH" 700 720)) * 100),
        "Holding"%string).
Proof.
  assert (H1 : forall z', In z' [mk_zone "BEARISH" 800 820] ->
     ~ (zone_low z' <= 710 <= zone_high z')).
  { intros z' [<-|[]]. simpl. intros [H _]. apply Qle_bool_iff in H. discriminate. }
  assert (H2 : zone_low (mk_zone "BULLISH" 700 720) <= 710 <= zone_high (mk_zone "BULLISH" 700 720)).
  { split; apply Qle_bool_iff; reflexivity. }
  assert (H3 : forall z', In z' ([mk_zone "BEARISH" 800 820] ++ [mk_zone "BULLISH" 700 720]) ->
     ~ zone_mid z' == 0).
  { intros z' [<-|[<-|[]]]; intro H; apply Qeq_bool_iff in H; discriminate. }
  split; [exact H1|]. split; [exact H2|]. split; [exact H3|].
  exact (C4_first_containing_zone_wins ExecuteDayMonitor_init 710
           [mk_zone "BEARISH" 800 820] (mk_zone "BULLISH" 700 720)
           [mk_zone "BULLISH" 705 712] H1 H2 H3).
Defined.

(** C4 counterexample: a zone with midpoint 0 before the containing zone
    makes the classifier raise ZeroDivisionError instead of returning
    INSIDE_BULLISH for the zone 700-720 that contains 710. *)
Lemma C4_zero_midpoint_raises :
  zone_low (mk_zone "BULLISH" 700 720) <= 710 <= zone_high (mk_zone "BULLISH" 700 720) /\
  _calculate_proximity ExecuteDayMonitor_init 710
    [mk_zone "BULLISH" 0 0; mk_zone "BULLISH" 700 720] = Raise ZeroDivisionError.
Proof.
  split.
  - split; apply Qle_bool_iff; reflexivity.
  - reflexivity.
Qed.

(** C1 (code defect): with the default configuration the near threshold is
    [NEAR_ZONE_PERCENT / 100 = 0.005] but is compared with a distance in
    percent; a zone of midpoint 710 (709-711) and [ltp = 706.5] are about
    0.493 percent apart, [ltp] lies in no zone, and the classifier answers
    NEAR with reaction "No Touch Yet", not "First Touch". *)
Lemma C1_near_threshold_in_wrong_unit :
  exists d,
    _calculate_proximity ExecuteDayMonitor_init (1413 # 2) [mk_zone "BULLISH" 709 711] =
      Ok ("NEAR"%string, Some (mk_zone "BULLISH" 709 711), Some d, "No Touch Yet"%string) /\
    zone_mid (mk_zone "BULLISH" 709 711) == 710 /\
    Qabs d <= Config.NEAR_ZONE_PERCENT /\
    ~ (zone_low (mk_zone "BULLISH" 709 711) <= 1413 # 2 <= zone_high (mk_zone "BULLISH" 709 711)).
Proof.
  eexists. split; [reflexivity|]. split; [reflexivity|]. split.
  - apply Qle_bool_iff. reflexivity.
  - intros [H _]. apply Qle_bool_iff in H. discriminate.
Qed.

End Proximity.

(** ** The alert filter *)

(** C9: [get_alerts] keeps, in input order, exactly the records whose status
    is INSIDE_BULLISH, INSIDE_BEARISH or NEAR and whose reaction is
    "First Touch" or "Holding"; no FAR record and no "No Touch Yet" record
    is kept. *)
Theorem C9_get_alerts_filter (l : list MonitoringRecord) :
  get_alerts l =
    filter (fun d => str_in (mr_status d) ["INSIDE_BULLISH"; "INSIDE_BEARISH"; "NEAR"]%string
                     && str_in (mr_reaction d) ["First Touch"; "Holding"]%string) l /\
  (forall d, In d (get_alerts l) <->
     In d l /\
     (mr_status d = "INSIDE_BULLISH" \/ mr_status d = "INSIDE_BEARISH" \/ mr_status d = "NEAR")%string /\
     (mr_reaction d = "First Touch" \/ mr_reaction d = "Holding")%string) /\
  (forall d, In d l -> mr_status d = "FAR"%string -> ~ In d (get_alerts l)) /\
  (forall d, In d l -> mr_reaction d = "No Touch Yet"%string -> ~ In d (get_alerts l)).
Proof.
  assert (Hf : get_alerts l =
    filter (fun d => str_in (mr_status d) ["INSIDE_BULLISH"; "INSIDE_BEARISH"; "NEAR"]%string
                     && str_in (mr_reaction d) ["First Touch"; "Holding"]%string) l).
  { induction l as [|d l IH]; [reflexivity|].
    cbn [get_alerts filter]. rewrite IH.
    destruct (str_in (mr_status d) ["INSIDE_BULLISH"; "INSIDE_BEARISH"; "NEAR"]%string);
      destruct (str_in (mr_reaction d) ["First Touch"; "Holding"]%string);
      reflexivity. }
  assert (Hin : forall d, In d (get_alerts l) <->
     In d l /\
     (mr_status d = "INSIDE_BULLISH" \/ mr_status d = "INSIDE_BEARISH" \/ mr_status d = "NEAR")%string /\
     (mr_reaction d = "First Touch" \/ mr_reaction d = "Holding")%string).
  { intro d. rewrite Hf, filter_In, andb_true_iff. unfold str_in. simpl.
    rewrite !orb_true_iff, !String.eqb_eq.
    split; intros [H1 [H2 H3]]; repeat split; auto;
      repeat (destruct H2 as [H2|H2]); repeat (destruct H3 as [H3|H3]);
      try discriminate; auto; tauto. }
  split; [exact Hf|]. split; [exact Hin|]. split.
  - intros d _ Hs H. apply Hin in H. rewrite Hs in H.
    destruct H as [_ [H _]]. repeat (destruct H as [H|H]); discriminate.
  - intros d _ Hr H. apply Hin in H. rewrite Hr in H.
    destruct H as [_ [_ H]]. repeat (destruct H as [H|H]); discriminate.
Qed.

(** ** The trading calendar *)

Module Calendar.
Import DateManager.
Open Scope Z_scope.

(** [_ord2ymd] after the 400-year split: [year] is [n400 * 400 + 1] and [n]
    the day within the 400-year cycle. *)
Definition ord2ymd_tail (year n : Z) : Z * Z * Z :=
  let n100 := n / _DI100Y in let n := n mod _DI100Y in
  let n4 := n / _DI4Y in let n := n mod _DI4Y in
  let n1 := n / 365 in let n := n mod 365 in
  let year := year + n100 * 100 + n4 * 4 + n1 in
  if (n1 =? 4) || (n100 =? 4) then (year - 1, 12, 31) else
  let leapyear := (n1 =? 3) && (negb (n4 =? 24) || (n100 =? 3)) in
  let month := Z.shiftr (n + 50) 5 in
  let preceding := _DAYS_BEFORE_MONTH month
                   + (if (month >? 2) && leapyear then 1 else 0) in
  let '(month, preceding) :=
    if preceding >? n then
      (month - 1, preceding - (_DAYS_IN_MONTH (month - 1)
                               + (if (month - 1 =? 2) && leapyear then 1 else 0)))
    else (month, preceding) in
  (year, month, n - preceding + 1).

Lemma ord2ymd_split n0 :
  _ord2ymd n0 = ord2ymd_tail ((n0 - 1) / _DI400Y * 400 + 1) ((n0 - 1) mod _DI400Y).
Proof. reflexivity. Qed.

Lemma ord2ymd_tail_shift c year n :
  ord2ymd_tail (year + c) n =
    let '(y, m, d) := ord2ymd_tail year n in (y + c, m, d).
Proof.
  unfold ord2ymd_tail. cbv zeta.
  destruct (_ || _).
  - f_equal. f_equal. ring.
  - destruct (_ >? _); f_equal; f_equal; ring.
Qed.

Lemma is_leap_shift y k : _is_leap (y + 400 * k) = _is_leap y.
Proof.
  unfold _is_leap.
  replace (y + 400 * k) with (y + (100 * k) * 4) by ring.
  rewrite Z_mod_plus_full.
  replace (y + 100 * k * 4) with (y + (4 * k) * 100) by ring.
  rewrite Z_mod_plus_full.
  replace (y + 4 * k * 100) with (y + k * 400) by ring.
  rewrite Z_mod_plus_full. reflexivity.
Qed.

Lemma ymd2ord_shift y m d k :
  _ymd2ord (y + 400 * k) m d = _ymd2ord y m d + 146097 * k.
Proof.
  unfold _ymd2ord, _days_before_year, _days_before_month.
  rewrite is_leap_shift.
  replace (y + 400 * k - 1) with ((y - 1) + (100 * k) * 4) by ring.
  rewrite Z_div_plus_full by lia.
  replace ((y - 1) + 100 * k * 4) with ((y - 1) + (4 * k) * 100) by ring.
  rewrite Z_div_plus_full by lia.
  replace ((y - 1) + 4 * k * 100) with ((y - 1) + k * 400) by ring.
  rewrite Z_div_plus_full by lia.
  ring.
Qed.

Lemma days_in_month_shift y m k : _days_in_month (y + 400 * k) m = _days_in_month y m.
Proof. unfold _days_in_month. rewrite is_leap_shift. reflexivity. Qed.

(** Finite checks, decided by evaluation. *)
Definition zseq (lo : Z) (n : nat) : list Z := map (fun k => lo + Z.of_nat k) (seq 0 n).

Lemma in_zseq lo n x : lo <= x < lo + Z.of_nat n -> In x (zseq lo n).
Proof.
  intro H. unfold zseq. apply in_map_iff. exists (Z.to_nat (x - lo)).
  split; [lia|]. apply in_seq. lia.
Qed.

Definition cycle_ok (r : Z) : bool :=
  let '(y, m, d) := ord2ymd_tail 1 r in
  (1 <=? y) && (y <=? 400) && (1 <=? m) && (m <=? 12)
  && (1 <=? d) && (d <=? _days_in_month y m)
  && (_ymd2ord y m d =? r + 1)
  && ((145730 <? r) || (y <=? 399)).

Lemma cycle_check :
  forallb (fun a => forallb (fun b => (146097 <=? a * 400 + b) || cycle_ok (a * 400 + b))
                            (zseq 0 400)) (zseq 0 400) = true.
Proof. vm_compute. reflexivity. Qed.

Lemma cycle_ok_all r : 0 <= r < 146097 -> cycle_ok r = true.
Proof.
  intro H. pose proof cycle_check as C.
  rewrite forallb_forall in C.
  assert (Ha : In (r / 400) (zseq 0 400)).
  { apply in_zseq. change (Z.of_nat 400) with 400.
    split; [apply Z.div_pos; lia|]. apply Z.div_lt_upper_bound; lia. }
  specialize (C (r / 400) Ha).
  rewrite forallb_forall in C.
  assert (Hb : In (r mod 400) (zseq 0 400)).
  { apply in_zseq. change (Z.of_nat 400) with 400.
    pose proof (Z.mod_pos_bound r 400). lia. }
  specialize (C (r mod 400) Hb).
  replace (r / 400 * 400 + r mod 400) with r in C
    by (pose proof (Z.div_mod r 400); lia).
  apply orb_true_iff in C. destruct C as [C|C]; [apply Z.leb_le in C; lia|exact C].
Qed.

Lemma ord2ymd_valid n :
  1 <= n <= MAXORDINAL ->
  let '(y, m, d) := _ord2ymd n in
  1 <= y <= 9999 /\ 1 <= m <= 12 /\ 1 <= d <= _days_in_month y m /\ _ymd2ord y m d = n.
Proof.
  intro Hn. unfold MAXORDINAL in Hn.
  rewrite ord2ymd_split.
  set (k := (n - 1) / _DI400Y). set (r := (n - 1) mod _DI400Y).
  assert (Hr : 0 <= r < 146097) by (apply Z.mod_pos_bound; unfold _DI400Y; lia).
  assert (Hk : 0 <= k < 25)
    by (unfold k, _DI400Y; split; [apply Z.div_pos|apply Z.div_lt_upper_bound]; lia).
  assert (Hnk : n - 1 = 146097 * k + r) by (unfold k, r, _DI400Y; apply Z.div_mod; lia).
  replace (k * 400 + 1) with (1 + 400 * k) by ring.
  rewrite ord2ymd_tail_shift.
  pose proof (cycle_ok_all r Hr) as C. unfold cycle_ok in C.
  destruct (ord2ymd_tail 1 r) as [[y m] d].
  rewrite !andb_true_iff, !orb_true_iff, !Z.leb_le, !Z.eqb_eq, !Z.ltb_lt in C.
  destruct C as [[[[[[[C1 C2] C3] C4] C5] C6] C7] C8].
  rewrite days_in_month_shift, ymd2ord_shift.
  assert (k < 24 \/ k = 24) as [Hk'|Hk'] by lia.
  - repeat split; lia.
  - destruct C8 as [C8|C8]; [lia|]. repeat split; lia.
Qed.


Lemma try_alts_ext {A} alts s (k1 k2 : string -> string -> option A) :
  (forall t r, k1 t r = k2 t r) -> try_alts alts s k1 = try_alts alts s k2.
Proof.
  intro H. induction alts as [|a alts IH]; simpl; [reflexivity|].
  destruct (match_seq a s) as [[t r]|]; [rewrite H; destruct (k2 t r)|]; auto.
Qed.

Lemma try_alts_map {A B} (g : A -> B) alts s k :
  try_alts alts s (fun t r => option_map g (k t r)) = option_map g (try_alts alts s k).
Proof.
  induction alts as [|a alts IH]; simpl; [reflexivity|].
  destruct (match_seq a s) as [[t r]|]; [destruct (k t r)|]; simpl; auto.
Qed.

Lemma try_alts_one {A} a s (k : string -> string -> option A) :
  try_alts [a] s k = match match_seq a s with Some (t, rest) => k t rest | None => None end.
Proof. simpl. destruct (match_seq a s) as [[t r]|]; [destruct (k t r)|]; reflexivity. Qed.

(** The month, dash and day part of the format. *)
Definition md_match (r : string) : option (string * string * string) :=
  try_alts m_alts r (fun mt r3 =>
  try_alts dash_alts r3 (fun _ r4 =>
  try_alts d_alts r4 (fun dt r5 => Some (mt, dt, r5)))).

Lemma format_match_digits c1 c2 c3 c4 r :
  is_digit c1 = true -> is_digit c2 = true -> is_digit c3 = true -> is_digit c4 = true ->
  format_match (String c1 (String c2 (String c3 (String c4 (String "-" r))))) =
  option_map (fun '(mt, dt, r5) =>
                (String c1 (String c2 (String c3 (String c4 EmptyString))), mt, dt, r5))
             (md_match r).
Proof.
  intros H1 H2 H3 H4. unfold format_match, Y_alts, dash_alts.
  rewrite try_alts_one.
  assert (EY : match_seq [is_digit; is_digit; is_digit; is_digit]
                 (String c1 (String c2 (String c3 (String c4 (String "-" r))))) =
               Some (String c1 (String c2 (String c3 (String c4 EmptyString))), String "-" r))
    by (simpl; rewrite H1, H2, H3, H4; reflexivity).
  rewrite EY. cbv beta iota.
  rewrite try_alts_one.
  assert (ED : match_seq [is_char 45] (String "-" r) = Some (String "-" EmptyString, r))
    by reflexivity.
  rewrite ED. cbv beta iota.
  unfold md_match, dash_alts.
  rewrite <- try_alts_map. apply try_alts_ext. intros mt r3.
  rewrite <- try_alts_map. apply try_alts_ext. intros u r4.
  rewrite <- try_alts_map. apply try_alts_ext. intros dt r5. reflexivity.
Qed.

Definition md_ok (m d : Z) : bool :=
  match md_match (pad2 m ++ "-" ++ pad2 d)%string with
  | Some (mt, dt, r5) => (int_of mt =? m) && (int_of dt =? d) && String.eqb r5 ""
  | None => false
  end.

Lemma md_check :
  forallb (fun m => forallb (fun d => md_ok m d) (zseq 1 31)) (zseq 1 12) = true.
Proof. vm_compute. reflexivity. Qed.

Definition year_ok (y : Z) : bool :=
  is_digit (digit (y / 1000)) && is_digit (digit ((y / 100) mod 10))
  && is_digit (digit ((y / 10) mod 10)) && is_digit (digit (y mod 10))
  && (int_of (pad4 y) =? y).

Lemma year_check : forallb year_ok (zseq 0 10000) = true.
Proof. vm_compute. reflexivity. Qed.

Lemma pad4_app y r :
  (pad4 y ++ r)%string =
  String (digit (y / 1000)) (String (digit ((y / 100) mod 10))
    (String (digit ((y / 10) mod 10)) (String (digit (y mod 10)) r))).
Proof. reflexivity. Qed.

Lemma strptime_format y m d :
  1 <= y <= 9999 -> 1 <= m <= 12 -> 1 <= d <= _days_in_month y m ->
  strptime (pad4 y ++ "-" ++ pad2 m ++ "-" ++ pad2 d)%string = Ok (_ymd2ord y m d).
Proof.
  intros Hy Hm Hd.
  assert (Hdim : _days_in_month y m <= 31).
  { unfold _days_in_month. destruct (_ && _); [lia|].
    assert (m = 1 \/ m = 2 \/ m = 3 \/ m = 4 \/ m = 5 \/ m = 6 \/ m = 7 \/ m = 8
            \/ m = 9 \/ m = 10 \/ m = 11 \/ m = 12) as Hc by lia.
    repeat (destruct Hc as [->|Hc]; [simpl; lia|]). subst. simpl. lia. }
  pose proof year_check as YC. rewrite forallb_forall in YC.
  specialize (YC y (in_zseq 0 10000 y ltac:(change (Z.of_nat 10000) with 10000; lia))).
  unfold year_ok in YC. rewrite !andb_true_iff, Z.eqb_eq in YC.
  destruct YC as [[[[D1 D2] D3] D4] Yv].
  pose proof md_check as MC. rewrite forallb_forall in MC.
  specialize (MC m (in_zseq 1 12 m ltac:(change (Z.of_nat 12) with 12; lia))).
  rewrite forallb_forall in MC.
  specialize (MC d (in_zseq 1 31 d ltac:(change (Z.of_nat 31) with 31; lia))).
  unfold md_ok in MC.
  rewrite pad4_app. change ("-" ++ ?r)%string with (String "-" r).
  unfold strptime. rewrite format_match_digits by assumption.
  destruct (md_match _) as [[[mt dt] r5]|]; [|discriminate].
  rewrite !andb_true_iff, !Z.eqb_eq, String.eqb_eq in MC.
  destruct MC as [[Mv Dv] ->]. simpl option_map. cbv iota beta.
  change (String (digit (y / 1000)) (String (digit ((y / 100) mod 10))
    (String (digit ((y / 10) mod 10)) (String (digit (y mod 10)) EmptyString))))
    with (pad4 y).
  rewrite Yv, Mv, Dv. simpl negb. cbv iota.
  destruct (y <? 1) eqn:E1; [apply Z.ltb_lt in E1; lia|].
  destruct (_days_in_month y m <? d) eqn:E2; [apply Z.ltb_lt in E2; lia|].
  reflexivity.
Qed.

(** The day of the year lies between 1 and 365, or 366 in a leap year. *)
Lemma doy_bounds y m d :
  1 <= m <= 12 -> 1 <= d <= _days_in_month y m ->
  1 <= _days_before_month y m + d <= 365 + (if _is_leap y then 1 else 0).
Proof.
  intros Hm Hd. unfold _days_before_month, _days_in_month in *.
  assert (m = 1 \/ m = 2 \/ m = 3 \/ m = 4 \/ m = 5 \/ m = 6 \/ m = 7 \/ m = 8
          \/ m = 9 \/ m = 10 \/ m = 11 \/ m = 12) as Hc by lia.
  destruct (_is_leap y);
    repeat (destruct Hc as [->|Hc]; [cbn -[Z.add Z.le] in *; lia|]);
    subst; cbn -[Z.add Z.le] in *; lia.
Qed.

(** The dates before 1000-01-01 are those of the years 1 to 999. *)
Lemma year_lt_1000_iff y m d :
  1 <= y -> 1 <= m <= 12 -> 1 <= d <= _days_in_month y m ->
  (y < 1000 <-> _ymd2ord y m d < _ymd2ord 1000 1 1).
Proof.
  intros Hy Hm Hd. pose proof (doy_bounds y m d Hm Hd) as B.
  change (_ymd2ord 1000 1 1) with 364878.
  unfold _ymd2ord.
  destruct (Z.eq_dec y 999) as [->|N999].
  { change (_days_before_year 999) with 364512. change (_is_leap 999) with false in B. lia. }
  destruct (Z.eq_dec y 1000) as [->|N1000].
  { change (_days_before_year 1000) with 364877. lia. }
  unfold _days_before_year.
  assert (L4 : _is_leap y = true -> y mod 4 = 0).
  { unfold _is_leap. intro L. apply andb_true_iff in L. destruct L as [L _].
    apply Z.eqb_eq in L. exact L. }
  pose proof (Z.div_mod (y - 1) 4 ltac:(lia)) as D4.
  pose proof (Z.mod_pos_bound (y - 1) 4 ltac:(lia)) as M4.
  pose proof (Z.div_mod (y - 1) 100 ltac:(lia)) as D100.
  pose proof (Z.mod_pos_bound (y - 1) 100 ltac:(lia)) as M100.
  pose proof (Z.div_mod (y - 1) 400 ltac:(lia)) as D400.
  pose proof (Z.mod_pos_bound (y - 1) 400 ltac:(lia)) as M400.
  pose proof (Z.div_mod y 4 ltac:(lia)) as E4.
  pose proof (Z.mod_pos_bound y 4 ltac:(lia)) as N4.
  set (q4 := (y - 1) / 4) in *. set (q100 := (y - 1) / 100) in *.
  set (q400 := (y - 1) / 400) in *.
  destruct (_is_leap y).
  - specialize (L4 eq_refl). clearbody q4 q100 q400. split; intro H; lia.
  - clearbody q4 q100 q400. split; intro H; lia.
Qed.

Lemma strptime_strftime n :
  _ymd2ord 1000 1 1 <= n <= MAXORDINAL -> strptime (strftime n) = Ok n.
Proof.
  intro Hn.
  assert (Hn1 : 1 <= n <= MAXORDINAL)
    by (change (_ymd2ord 1000 1 1) with 364878 in Hn; lia).
  pose proof (ord2ymd_valid n Hn1) as V. unfold strftime.
  destruct (_ord2ymd n) as [[y m] d].
  destruct V as [Hy [Hm [Hd E]]].
  assert (Hy1000 : 1000 <= y).
  { destruct (Z_lt_le_dec y 1000) as [L|L]; [|exact L].
    apply (year_lt_1000_iff y m d) in L; [lia|lia|exact Hm|exact Hd]. }
  assert (Ey : year_str y = pad4 y).
  { unfold year_str.
    destruct (y <? 10) eqn:E1; [apply Z.ltb_lt in E1; lia|].
    destruct (y <? 100) eqn:E2; [apply Z.ltb_lt in E2; lia|].
    destruct (y <? 1000) eqn:E3; [apply Z.ltb_lt in E3; lia|]. reflexivity. }
  rewrite Ey, strptime_format by assumption. rewrite E. reflexivity.
Qed.

(** A dash among the first four characters fails the [%Y] group. *)
Lemma format_match_dash_early c1 c2 c3 r :
  format_match (String c1 (String "-" r)) = None /\
  format_match (String c1 (String c2 (String "-" r))) = None /\
  format_match (String c1 (String c2 (String c3 (String "-" r)))) = None.
Proof.
  unfold format_match, Y_alts. rewrite !try_alts_one. cbn [match_seq].
  destruct (is_digit c1), (is_digit c2), (is_digit c3); repeat split; reflexivity.
Qed.

(** The string of a date of the years 1 to 999 has fewer than four year
    digits, which [strptime('%Y-%m-%d')] refuses. *)
Lemma strptime_strftime_small n :
  1 <= n < _ymd2ord 1000 1 1 ->
  strptime (strftime n) =
    Raise (ValueError ("time data '" ++ strftime n ++ "' does not match format '%Y-%m-%d'")%string).
Proof.
  intro Hn.
  assert (Hn1 : 1 <= n <= MAXORDINAL)
    by (change (_ymd2ord 1000 1 1) with 364878 in Hn; unfold MAXORDINAL; lia).
  pose proof (ord2ymd_valid n Hn1) as V.
  assert (F : format_match (strftime n) = None).
  { unfold strftime. destruct (_ord2ymd n) as [[y m] d].
    destruct V as [Hy [Hm [Hd E]]].
    assert (Hy' : y < 1000)
      by (apply (proj2 (year_lt_1000_iff y m d ltac:(lia) Hm Hd)); lia).
    unfold year_str.
    destruct (y <? 10) eqn:E1;
      [cbn [append]; exact (proj1 (format_match_dash_early _ "0" "0" _))|].
    destruct (y <? 100) eqn:E2;
      [unfold pad2; cbn [append]; exact (proj1 (proj2 (format_match_dash_early _ _ "0" _)))|].
    destruct (y <? 1000) eqn:E3;
      [unfold pad2; cbn [append]; exact (proj2 (proj2 (format_match_dash_early _ _ _ _)))|].
    apply Z.ltb_ge in E3. lia. }
  unfold strptime at 1. rewrite F. reflexivity.
Qed.

(** Bounds of the calendar steps. *)

Lemma sub_day_ok d r : sub_day d = Ok r -> r = d - 1 /\ 1 <= r.
Proof.
  unfold sub_day. destruct (d - 1 <? 1) eqn:E; intro H; inversion H; subst.
  apply Z.ltb_ge in E. lia.
Qed.

Lemma lookback_bound date fuel cur r :
  1 <= cur <= date - 1 -> lookback date fuel cur = Ok r -> 1 <= r <= date - 1.
Proof.
  revert cur. induction fuel as [|fuel IH]; intros cur Hc H; simpl in H.
  - apply sub_day_ok in H. lia.
  - destruct (is_trading_day cur).
    + inversion H; subst; lia.
    + destruct (sub_day cur) as [c'|e] eqn:E; [|discriminate].
      apply sub_day_ok in E. cbn [bind] in H. apply (IH c'); [lia|exact H].
Qed.

Lemma get_previous_trading_day_bound d r :
  get_previous_trading_day d = Ok r -> 1 <= r <= d - 1.
Proof.
  unfold get_previous_trading_day. destruct (sub_day d) as [c|e] eqn:E; [|discriminate].
  apply sub_day_ok in E. cbn [bind]. apply lookback_bound. lia.
Qed.


Definition ymd_max_ok (y : Z) : bool :=
  forallb (fun m => _ymd2ord y m (_days_in_month y m) <=? MAXORDINAL) (zseq 1 12).

Lemma ymd_max_check : forallb ymd_max_ok (zseq 1 9999) = true.
Proof. vm_compute. reflexivity. Qed.

Lemma int_of_acc_nonneg acc s : 0 <= acc -> 0 <= int_of_acc acc s.
Proof.
  revert acc. induction s as [|c s IH]; intros acc H; simpl; [exact H|].
  destruct (is_digit c) eqn:D; apply IH; [|exact H].
  unfold is_digit, in_range in D. apply andb_true_iff in D. destruct D as [D _].
  apply Nat.leb_le in D. lia.
Qed.

Lemma try_alts_inv {A} alts s (k : string -> string -> option A) v :
  try_alts alts s k = Some v ->
  exists a t r, In a alts /\ match_seq a s = Some (t, r) /\ k t r = Some v.
Proof.
  induction alts as [|a alts IH]; simpl; [discriminate|].
  destruct (match_seq a s) as [[t r]|] eqn:M.
  - destruct (k t r) as [w|] eqn:K.
    + intro H. inversion H; subst. exists a, t, r. auto.
    + intro H. destruct (IH H) as [a' [t' [r' [H1 H2]]]]. exists a', t', r'. auto.
  - intro H. destruct (IH H) as [a' [t' [r' [H1 H2]]]]. exists a', t', r'. auto.
Qed.

Lemma format_match_year s yt mt dt rest :
  format_match s = Some (yt, mt, dt, rest) -> 0 <= int_of yt <= 9999.
Proof.
  unfold format_match. intro F.
  apply try_alts_inv in F. destruct F as [a [t [r [Ha [Hm Hk]]]]].
  apply try_alts_inv in Hk. destruct Hk as [_ [_ [r2 [_ [_ Hk]]]]].
  apply try_alts_inv in Hk. destruct Hk as [_ [mt' [r3 [_ [_ Hk]]]]].
  apply try_alts_inv in Hk. destruct Hk as [_ [_ [r4 [_ [_ Hk]]]]].
  apply try_alts_inv in Hk. destruct Hk as [_ [dt' [r5 [_ [_ Hk]]]]].
  inversion Hk; subst yt. clear Hk.
  destruct Ha as [<-|[]].
  destruct s as [|c1 s]; [discriminate|]. simpl in Hm.
  destruct (is_digit c1) eqn:D1; [|discriminate].
  destruct s as [|c2 s]; [discriminate|].
  destruct (is_digit c2) eqn:D2; [|discriminate].
  destruct s as [|c3 s]; [discriminate|].
  destruct (is_digit c3) eqn:D3; [|discriminate].
  destruct s as [|c4 s]; [discriminate|].
  destruct (is_digit c4) eqn:D4; [|discriminate].
  inversion Hm; subst t. unfold int_of. simpl. rewrite D1, D2, D3, D4.
  unfold is_digit, in_range in D1, D2, D3, D4.
  rewrite andb_true_iff, !Nat.leb_le in D1, D2, D3, D4. lia.
Qed.

Lemma DAYS_IN_MONTH_out m : 12 < m -> _DAYS_IN_MONTH m = -1.
Proof.
  intro H. destruct m as [|p|p]; try lia.
  repeat (match goal with p : positive |- _ => destruct p end; try lia; try reflexivity).
Qed.

Lemma days_in_month_range y m : 0 <= _days_in_month y m -> 1 <= m <= 12.
Proof.
  unfold _days_in_month. destruct ((m =? 2) && _is_leap y) eqn:E.
  - apply andb_true_iff in E. destruct E as [E _]. apply Z.eqb_eq in E. lia.
  - intro H. destruct (Z_lt_le_dec 12 m) as [L|L].
    + rewrite DAYS_IN_MONTH_out in H by exact L. lia.
    + split; [|exact L]. destruct m as [|p|p]; simpl in H; lia.
Qed.

Lemma strptime_bound s d : strptime s = Ok d -> d <= MAXORDINAL.
Proof.
  unfold strptime. destruct (format_match s) as [[[[yt mt] dt] rest]|] eqn:F;
    [|discriminate].
  apply format_match_year in F.
  destruct (negb (rest =? "")%string); [discriminate|].
  destruct (int_of yt <? 1) eqn:E1; [discriminate|].
  destruct (_days_in_month (int_of yt) (int_of mt) <? int_of dt) eqn:E2; [discriminate|].
  intro H. inversion H; subst d. clear H.
  apply Z.ltb_ge in E1. apply Z.ltb_ge in E2.
  pose proof (int_of_acc_nonneg 0 dt ltac:(lia)) as Hd. fold (int_of dt) in Hd.
  assert (Hm : 1 <= int_of mt <= 12) by (apply (days_in_month_range (int_of yt)); lia).
  pose proof ymd_max_check as C. rewrite forallb_forall in C.
  specialize (C (int_of yt) (in_zseq 1 9999 (int_of yt) ltac:(change (Z.of_nat 9999) with 9999; lia))).
  unfold ymd_max_ok in C. rewrite forallb_forall in C.
  specialize (C (int_of mt) (in_zseq 1 12 (int_of mt) ltac:(change (Z.of_nat 12) with 12; lia))).
  apply Z.leb_le in C. unfold _ymd2ord in *. lia.
Qed.


Lemma strptime_raise s e : strptime s = Raise e -> exists msg, e = ValueError msg.
Proof.
  unfold strptime. destruct (format_match s) as [[[[yt mt] dt] rest]|].
  - destruct (negb _); [intro H; inversion H; eauto|].
    destruct (int_of yt <? 1); [intro H; inversion H; eauto|].
    destruct (_ <? _); intro H; inversion H; eauto.
  - intro H. inversion H. eauto.
Qed.


(** C3: for a string that parses to the date [d], [calculate_fetch_day]
    applies [get_previous_trading_day] twice to [d] and formats the result;
    on 2026-01-30, a Friday, it gives 2026-01-28, a Wednesday. *)
Theorem C3_fetch_day_two_previous_trading_days (s : string) (d : Z) :
  strptime s = Ok d ->
  calculate_fetch_day s =
    (d1 <- get_previous_trading_day d ;;
     d2 <- get_previous_trading_day d1 ;;
     Ok (strftime d2)) /\
  calculate_fetch_day "2026-01-30" = Ok "2026-01-28"%string /\
  strptime "2026-01-30" = Ok 739646 /\ weekday 739646 = 4 /\
  strptime "2026-01-28" = Ok 739644 /\ weekday 739644 = 2.
Proof.
  intro H. split.
  - unfold calculate_fetch_day. rewrite H. cbn [bind go_back].
    destruct (get_previous_trading_day d) as [d1|e]; cbn [bind]; [|reflexivity].
    destruct (get_previous_trading_day d1); reflexivity.
  - vm_compute. repeat split.
Qed.

Lemma C3_fetch_day_two_previous_trading_days_witness :
  strptime "2026-01-30" = Ok 739646 /\
  calculate_fetch_day "2026-01-30" =
    (d1 <- get_previous_trading_day 739646 ;;
     d2 <- get_previous_trading_day d1 ;;
     Ok (strftime d2)).
Proof.
  assert (H : strptime "2026-01-30" = Ok 739646) by (vm_compute; reflexivity).
  split; [exact H|].
  exact (proj1 (C3_fetch_day_two_previous_trading_days "2026-01-30" 739646 H)).
Defined.




Close Scope Z_scope.
End Calendar.

(** ** The zone detector *)

Module Detector.
Import ZoneDetector.

Definition dflt : candle :=
  {| date := ""; open_ := 0; high := 0; low := 0; close := 0; volume := 0 |}.

Definition row (df : list candle) (i : nat) : candle := nth i df dflt.

(** The net displacement of a pair, [|close[j] - close[i]|]. *)
Definition net_displacement (df : list candle) (i j : nat) : Q :=
  Qabs (close (row df j) - close (row df i)).

(** The filter of the impulse scan in the words of the specification: the
    net displacement reaches [atr_multiplier * atr], and the pullback over
    the candles [i..j] (below [close[i]] for a rise, above it otherwise) is
    at most 0.3 times the net displacement. *)
Definition survives (self : ZoneDetector) (df : list candle) (atr : Q) (i j : nat) : Prop :=
  let ci := close (row df i) in
  let cj := close (row df j) in
  atr_multiplier self * atr <= net_displacement df i j /\
  (ci < cj -> forall k, (i <= k <= j)%nat -> ci - low (row df k) <= net_displacement df i j * (3 # 10)) /\
  (~ ci < cj -> forall k, (i <= k <= j)%nat -> high (row df k) - ci <= net_displacement df i j * (3 # 10)).

Definition direction_of (df : list candle) (i j : nat) : string :=
  if Qltb (close (row df i)) (close (row df j)) then "BULLISH"%string else "BEARISH"%string.

Lemma Qmin_cases x y : Qmin x y = x \/ Qmin x y = y.
Proof. unfold Qmin, GenericMinMax.gmin. destruct (x ?= y); auto. Qed.

Lemma Qmax_cases x y : Qmax x y = x \/ Qmax x y = y.
Proof. unfold Qmax, GenericMinMax.gmax. destruct (x ?= y); auto. Qed.

Lemma fold_min_spec (l : list Q) x0 :
  (forall y, In y (x0 :: l) -> fold_left Qmin l x0 <= y) /\ In (fold_left Qmin l x0) (x0 :: l).
Proof.
  revert x0. induction l as [|a l IH]; intro x0; simpl.
  - split; [intros y [<-|[]]; apply Qle_refl|auto].
  - destruct (IH (Qmin x0 a)) as [H1 H2]. split.
    + intros y [<-|[<-|Hy]].
      * eapply Qle_trans; [apply H1; left; reflexivity|apply Q.le_min_l].
      * eapply Qle_trans; [apply H1; left; reflexivity|apply Q.le_min_r].
      * apply H1. right. exact Hy.
    + destruct H2 as [H2|H2]; [|auto].
      rewrite <- H2. destruct (Qmin_cases x0 a) as [E|E]; rewrite E; auto.
Qed.

Lemma fold_max_spec (l : list Q) x0 :
  (forall y, In y (x0 :: l) -> y <= fold_left Qmax l x0) /\ In (fold_left Qmax l x0) (x0 :: l).
Proof.
  revert x0. induction l as [|a l IH]; intro x0; simpl.
  - split; [intros y [<-|[]]; apply Qle_refl|auto].
  - destruct (IH (Qmax x0 a)) as [H1 H2]. split.
    + intros y [<-|[<-|Hy]].
      * eapply Qle_trans; [apply Q.le_max_l|apply H1; left; reflexivity].
      * eapply Qle_trans; [apply Q.le_max_r|apply H1; left; reflexivity].
      * apply H1. right. exact Hy.
    + destruct H2 as [H2|H2]; [|auto].
      rewrite <- H2. destruct (Qmax_cases x0 a) as [E|E]; rewrite E; auto.
Qed.

Lemma qmin_spec l x : qmin l = Some x -> (forall y, In y l -> x <= y) /\ In x l.
Proof.
  destruct l as [|a l]; simpl; [discriminate|]. intro H. inversion H; subst.
  apply fold_min_spec.
Qed.

Lemma qmax_spec l x : qmax l = Some x -> (forall y, In y l -> y <= x) /\ In x l.
Proof.
  destruct l as [|a l]; simpl; [discriminate|]. intro H. inversion H; subst.
  apply fold_max_spec.
Qed.

Lemma loc_row df i : (i < List.length df)%nat -> loc df i = Ok (row df i).
Proof.
  intro H. unfold loc, row. destruct (nth_error df i) eqn:E.
  - apply nth_error_nth with (d := dflt) in E. rewrite E. reflexivity.
  - apply nth_error_None in E. lia.
Qed.

Lemma in_loc_slice df i j c :
  (i <= j < List.length df)%nat ->
  In c (loc_slice df i j) <-> exists k, (i <= k <= j)%nat /\ c = row df k.
Proof.
  intro H. unfold loc_slice, row.
  assert (Hl : List.length (firstn (S j - i) (skipn i df)) = (S j - i)%nat).
  { rewrite length_firstn, length_skipn. lia. }
  split.
  - intro Hin. apply (In_nth _ _ dflt) in Hin. destruct Hin as [k [Hk Hc]].
    rewrite Hl in Hk. exists (i + k)%nat. split; [lia|].
    rewrite <- Hc, nth_firstn.
    replace (k <? S j - i)%nat with true by (symmetry; apply Nat.ltb_lt; lia).
    rewrite nth_skipn. reflexivity.
  - intros [k [Hk ->]].
    replace (nth k df dflt) with (nth (k - i) (firstn (S j - i) (skipn i df)) dflt).
    + apply nth_In. rewrite Hl. lia.
    + rewrite nth_firstn.
      replace (k - i <? S j - i)%nat with true by (symmetry; apply Nat.ltb_lt; lia).
      rewrite nth_skipn. f_equal. lia.
Qed.

Lemma loc_slice_nonempty df i j :
  (i <= j < List.length df)%nat -> loc_slice df i j <> [].
Proof.
  intros H E. assert (Hin : In (row df i) (loc_slice df i j)).
  { apply in_loc_slice; [exact H|]. exists i. split; [lia|reflexivity]. }
  rewrite E in Hin. exact Hin.
Qed.


Lemma eval_pair_char self df atr i j :
  (i <= j < List.length df)%nat ->
  (eval_pair self df atr i j = Ok None /\ ~ survives self df atr i j) \/
  (eval_pair self df atr i j = Ok (Some (direction_of df i j, net_displacement df i j)) /\
   survives self df atr i j).
Proof.
  intro H. unfold eval_pair. rewrite !loc_row by lia. cbn [bind].
  change (Qabs (close (row df j) - close (row df i))) with (net_displacement df i j).
  unfold survives, direction_of.
  set (ci := close (row df i)). set (cj := close (row df j)).
  set (net := net_displacement df i j).
  destruct (Qltb net (atr_multiplier self * atr)) eqn:E1.
  - apply Qltb_iff in E1. left. split; [reflexivity|].
    intros [S1 _]. apply (Qlt_not_le _ _ E1 S1).
  - apply Qltb_false in E1.
    pose proof (loc_slice_nonempty df i j H) as NE.
    destruct (Qltb ci cj) eqn:E2.
    + apply Qltb_iff in E2.
      destruct (qmin (map low (loc_slice df i j))) as [lo|] eqn:E3.
      2:{ destruct (loc_slice df i j); [congruence|discriminate]. }
      apply qmin_spec in E3. destruct E3 as [Lmin Lin].
      apply in_map_iff in Lin. destruct Lin as [c0 [Hc0 Hin0]].
      apply (in_loc_slice df i j c0 H) in Hin0. destruct Hin0 as [k0 [Hk0 ->]].
      destruct (Qltb (net * (3 # 10)) (ci - lo)) eqn:E4.
      * apply Qltb_iff in E4. left. split; [reflexivity|].
        intros [_ [S2 _]]. specialize (S2 E2 k0 Hk0). rewrite Hc0 in S2. lra.
      * apply Qltb_false in E4. right. split; [reflexivity|].
        split; [exact E1|]. split.
        -- intros _ k Hk. assert (lo <= low (row df k)).
           { apply Lmin. apply in_map. apply in_loc_slice; [exact H|]. exists k. auto. }
           lra.
        -- intro C. contradiction.
    + apply Qltb_false in E2.
      destruct (qmax (map high (loc_slice df i j))) as [hi|] eqn:E3.
      2:{ destruct (loc_slice df i j); [congruence|discriminate]. }
      apply qmax_spec in E3. destruct E3 as [Lmax Lin].
      apply in_map_iff in Lin. destruct Lin as [c0 [Hc0 Hin0]].
      apply (in_loc_slice df i j c0 H) in Hin0. destruct Hin0 as [k0 [Hk0 ->]].
      assert (NL : ~ ci < cj) by (intro C; apply (Qlt_not_le _ _ C E2)).
      destruct (Qltb (net * (3 # 10)) (hi - ci)) eqn:E4.
      * apply Qltb_iff in E4. left. split; [reflexivity|].
        intros [_ [_ S3]]. specialize (S3 NL k0 Hk0). rewrite Hc0 in S3. lra.
      * apply Qltb_false in E4. right. split; [reflexivity|].
        split; [exact E1|]. split.
        -- intro C. contradiction.
        -- intros _ k Hk. assert (high (row df k) <= hi).
           { apply Lmax. apply in_map. apply in_loc_slice; [exact H|]. exists k. auto. }
           lra.
Qed.

Lemma in_scan_pairs n i j :
  In (i, j) (scan_pairs n) <-> (i + 3 <= j < i + 20 /\ j < n)%nat.
Proof.
  unfold scan_pairs. rewrite in_flat_map. split.
  - intros [i' [Hi' Hm]]. apply in_map_iff in Hm. destruct Hm as [j' [E Hj']].
    inversion E; subst. apply in_seq in Hi'. apply in_seq in Hj'. lia.
  - intros H. exists i. split; [apply in_seq; lia|].
    apply in_map_iff. exists j. split; [reflexivity|]. apply in_seq. lia.
Qed.

(** The invariant of the impulse scan after a prefix [l] of the pairs. *)
Definition Inv (self : ZoneDetector) (df : list candle) (atr : Q)
    (l : list (nat * nat)) (acc : option impulse * Q) : Prop :=
  match fst acc with
  | None => snd acc = 0 /\
      forall i j d x, In (i, j) l -> eval_pair self df atr i j = Ok (Some (d, x)) -> x <= 0
  | Some imp => exists pre post,
      l = pre ++ (start_idx imp, end_idx imp) :: post /\
      eval_pair self df atr (start_idx imp) (end_idx imp) = Ok (Some (direction imp, snd acc)) /\
      strength imp = (if Qltb (2 * atr) (snd acc) then "HIGH" else "MEDIUM")%string /\
      0 < snd acc /\
      (forall i j d x, In (i, j) pre -> eval_pair self df atr i j = Ok (Some (d, x)) -> x < snd acc) /\
      (forall i j d x, In (i, j) post -> eval_pair self df atr i j = Ok (Some (d, x)) -> x <= snd acc)
  end.

Lemma Inv_keep self df atr l acc i j :
  Inv self df atr l acc ->
  (forall d x, eval_pair self df atr i j = Ok (Some (d, x)) -> x <= snd acc) ->
  Inv self df atr (l ++ [(i, j)]) acc.
Proof.
  destruct acc as [[imp|] m]; unfold Inv; cbn [fst snd].
  - intros [pre [post [E [Ev [St [Pos [Hpre Hpost]]]]]]] Hn.
    exists pre, (post ++ [(i, j)]). repeat split; auto.
    + rewrite E. rewrite <- app_assoc. reflexivity.
    + intros i' j' d x Hin Hx. apply in_app_or in Hin. destruct Hin as [Hin|[Hin|[]]].
      * eapply Hpost; eauto.
      * injection Hin as <- <-. eapply Hn; eauto.
  - intros [Hm Hl] Hn. split; [exact Hm|].
    intros i' j' d x Hin Hx. apply in_app_or in Hin. destruct Hin as [Hin|[Hin|[]]].
    + eapply Hl; eauto.
    + injection Hin as <- <-. rewrite <- Hm. eapply Hn; eauto.
Qed.

Lemma Inv_bound self df atr l acc i j d x :
  Inv self df atr l acc -> In (i, j) l ->
  eval_pair self df atr i j = Ok (Some (d, x)) -> x <= snd acc.
Proof.
  destruct acc as [[imp|] m]; unfold Inv; cbn [fst snd].
  - intros [pre [post [E [Ev [St [Pos [Hpre Hpost]]]]]]] Hin Hx.
    rewrite E in Hin. apply in_app_or in Hin. destruct Hin as [Hin|[Hin|Hin]].
    + apply Qlt_le_weak. eapply Hpre; eauto.
    + inversion Hin; subst. rewrite Hx in Ev. inversion Ev; subst. apply Qle_refl.
    + eapply Hpost; eauto.
  - intros [Hm Hl] Hin Hx. rewrite Hm. eapply Hl; eauto.
Qed.

Lemma Inv_pos self df atr l acc :
  Inv self df atr l acc -> 0 <= snd acc.
Proof.
  destruct acc as [[imp|] m]; unfold Inv; cbn [fst snd].
  - intros [_ [_ [_ [_ [_ [Pos _]]]]]]. apply Qlt_le_weak. exact Pos.
  - intros [-> _]. apply Qle_refl.
Qed.

Lemma step_inv self df atr l acc i j :
  (i <= j < List.length df)%nat -> Inv self df atr l acc ->
  exists acc', impulse_step self df atr acc (i, j) = Ok acc' /\
               Inv self df atr (l ++ [(i, j)]) acc'.
Proof.
  intros H HI. unfold impulse_step.
  destruct (eval_pair_char self df atr i j H) as [[Ev _]|[Ev _]]; rewrite Ev; cbn [bind].
  - exists acc. split; [reflexivity|]. apply Inv_keep; [exact HI|].
    intros d x E. rewrite Ev in E. discriminate.
  - destruct (Qltb (snd acc) (net_displacement df i j)) eqn:Lt.
    + rewrite !loc_row by lia. cbn [bind].
      eexists. split; [reflexivity|]. unfold Inv. cbn [fst snd start_idx end_idx direction strength].
      apply Qltb_iff in Lt. pose proof (Inv_pos _ _ _ _ _ HI) as P.
      exists l, []. repeat split.
      * exact Ev.
      * apply (Qle_lt_trans _ _ _ P Lt).
      * intros i' j' d x Hin Hx. apply (Qle_lt_trans _ (snd acc)); [|exact Lt].
        eapply Inv_bound; eauto.
      * intros i' j' d x [].
    + exists acc. split; [reflexivity|]. apply Inv_keep; [exact HI|].
      intros d x E. rewrite Ev in E. inversion E; subst. apply Qltb_false in Lt. exact Lt.
Qed.

Lemma fold_inv self df atr l2 : forall l1 acc,
  (forall i j, In (i, j) l2 -> (i <= j < List.length df)%nat) ->
  Inv self df atr l1 acc ->
  exists acc', fold_m (impulse_step self df atr) l2 acc = Ok acc' /\
               Inv self df atr (l1 ++ l2) acc'.
Proof.
  induction l2 as [|[i j] l2 IH]; intros l1 acc Hr HI; cbn [fold_m].
  - exists acc. rewrite app_nil_r. auto.
  - destruct (step_inv self df atr l1 acc i j) as [acc1 [E1 H1]]; [apply Hr; left; reflexivity|exact HI|].
    rewrite E1. cbn [bind].
    destruct (IH (l1 ++ [(i, j)]) acc1) as [acc2 [E2 H2]].
    + intros i' j' Hin. apply Hr. right. exact Hin.
    + exact H1.
    + exists acc2. rewrite <- app_assoc in H2. auto.
Qed.

Lemma find_major_impulse_inv self df atr :
  exists acc, find_major_impulse self df atr = Ok (fst acc) /\
              Inv self df atr (scan_pairs (List.length df)) acc.
Proof.
  destruct (fold_inv self df atr (scan_pairs (List.length df)) [] (None, 0)) as [acc [E H]].
  - intros i j Hin. apply in_scan_pairs in Hin. lia.
  - unfold Inv. cbn. split; [reflexivity|]. intros i j d x [].
  - exists acc. unfold find_major_impulse. rewrite E. auto.
Qed.

Lemma eval_pair_some self df atr i j d x :
  (i <= j < List.length df)%nat -> eval_pair self df atr i j = Ok (Some (d, x)) ->
  survives self df atr i j /\ d = direction_of df i j /\ x = net_displacement df i j.
Proof.
  intros H E. destruct (eval_pair_char self df atr i j H) as [[E' _]|[E' S]];
    rewrite E' in E; inversion E; subst; auto.
Qed.

Lemma eval_pair_survives self df atr i j :
  (i <= j < List.length df)%nat -> survives self df atr i j ->
  eval_pair self df atr i j = Ok (Some (direction_of df i j, net_displacement df i j)).
Proof.
  intros H S. destruct (eval_pair_char self df atr i j H) as [[_ NS]|[E _]];
    [contradiction|exact E].
Qed.

Lemma scan_pair_range n i j : In (i, j) (scan_pairs n) -> (i <= j < n)%nat.
Proof. intro H. apply in_scan_pairs in H. lia. Qed.

Lemma in_app_pre {A} (pre post : list A) x y : In y pre -> In y (pre ++ x :: post).
Proof. intro H. apply in_or_app. left. exact H. Qed.

Lemma in_app_post {A} (pre post : list A) x y : In y post -> In y (pre ++ x :: post).
Proof. intro H. apply in_or_app. right. right. exact H. Qed.

Lemma in_app_mid {A} (pre post : list A) x : In x (pre ++ x :: post).
Proof. apply in_or_app. right. left. reflexivity. Qed.


(** C5: [find_major_impulse] scans exactly the pairs [(i, j)] with
    [3 <= j - i < 20] in the order of the two loops, and keeps among the
    surviving pairs (net displacement at least [atr_multiplier * atr],
    pullback at most 0.3 times the net displacement) the first one of
    largest net displacement, provided that displacement is positive; its
    strength is HIGH when the displacement exceeds [2 * atr] and MEDIUM
    otherwise.  The result is none exactly when no surviving pair has a
    positive net displacement. *)
Theorem C5_find_major_impulse_selection (self : ZoneDetector) (df : list candle) (atr : Q) :
  (forall i j, In (i, j) (scan_pairs (List.length df)) <->
               (i + 3 <= j < i + 20 /\ j < List.length df)%nat) /\
  exists r, find_major_impulse self df atr = Ok r /\
  match r with
  | None => forall i j, In (i, j) (scan_pairs (List.length df)) ->
              survives self df atr i j -> net_displacement df i j <= 0
  | Some imp =>
      let m := net_displacement df (start_idx imp) (end_idx imp) in
      exists pre post,
        scan_pairs (List.length df) = pre ++ (start_idx imp, end_idx imp) :: post /\
        survives self df atr (start_idx imp) (end_idx imp) /\
        direction imp = direction_of df (start_idx imp) (end_idx imp) /\
        0 < m /\
        (forall i j, In (i, j) pre -> survives self df atr i j -> net_displacement df i j < m) /\
        (forall i j, In (i, j) post -> survives self df atr i j -> net_displacement df i j <= m) /\
        ((2 * atr < m /\ strength imp = "HIGH"%string) \/
         (m <= 2 * atr /\ strength imp = "MEDIUM"%string))
  end.
Proof.
  split; [apply in_scan_pairs|].
  destruct (find_major_impulse_inv self df atr) as [[best mm] [E I]].
  exists best. split; [exact E|]. unfold Inv in I. cbn [fst snd] in I.
  destruct best as [imp|].
  - destruct I as [pre [post [L [Ev [St [Pos [Hpre Hpost]]]]]]].
    assert (R : (start_idx imp <= end_idx imp < List.length df)%nat).
    { apply (scan_pair_range (List.length df)). rewrite L. apply in_app_mid. }
    destruct (eval_pair_some _ _ _ _ _ _ _ R Ev) as [S [Dd Dm]].
    cbv zeta. rewrite <- Dm.
    exists pre, post. split; [exact L|]. split; [exact S|]. split; [exact Dd|].
    split; [exact Pos|]. split; [|split].
    + intros i j Hin Hs. eapply Hpre; [exact Hin|].
      apply eval_pair_survives; [|exact Hs].
      apply (scan_pair_range (List.length df)). rewrite L. apply in_app_pre. exact Hin.
    + intros i j Hin Hs. eapply Hpost; [exact Hin|].
      apply eval_pair_survives; [|exact Hs].
      apply (scan_pair_range (List.length df)). rewrite L. apply in_app_post. exact Hin.
    + destruct (Qltb (2 * atr) mm) eqn:Q.
      * left. split; [apply Qltb_iff; exact Q|exact St].
      * right. split; [apply Qltb_false; exact Q|exact St].
  - destruct I as [_ Hl]. intros i j Hin Hs. eapply Hl; [exact Hin|].
    apply eval_pair_survives; [apply (scan_pair_range (List.length df)); exact Hin|exact Hs].
Qed.

(** C5: on four equal candles with an ATR of 0, the pair [(0, 3)] is scanned
    and survives the filter (zero displacement, zero pullback), yet the scan
    returns none, since [max_move] starts at 0 and only a strictly larger
    displacement replaces it. *)
Lemma C5_zero_displacement_survivor_dropped :
  In (0%nat, 3%nat) (scan_pairs (List.length Samples.flat4)) /\
  survives ZoneDetector_default Samples.flat4 0 0 3 /\
  find_major_impulse ZoneDetector_default Samples.flat4 0 = Ok None.
Proof.
  split; [vm_compute; auto|]. split; [|vm_compute; reflexivity].
  assert (Rk : forall k, (k <= 3)%nat -> row Samples.flat4 k = Samples.mk 100 100 100).
  { intros k Hk. destruct k as [|[|[|[|k]]]]; try reflexivity. lia. }
  unfold survives, net_displacement. cbv zeta. rewrite (Rk 0%nat), (Rk 3%nat) by lia. cbn.
  split; [discriminate|]. split.
  - intros C. exfalso. apply (Qlt_irrefl _ C).
  - intros _ k Hk. destruct k as [|[|[|[|k]]]]; try lia; apply Qle_bool_iff; vm_compute; reflexivity.
Qed.

(** C10: an impulse returned by [find_major_impulse] spans at least 3 and at
    most 19 candles inside the series, its net displacement reaches
    [atr_multiplier * atr], its direction is BULLISH exactly when the end
    close is above the start close and BEARISH otherwise, and its strength
    is HIGH or MEDIUM.  ([0 <= start_idx] holds by the type [nat].) *)
Theorem C10_impulse_well_formed self df atr imp :
  find_major_impulse self df atr = Ok (Some imp) ->
  (start_idx imp + 3 <= end_idx imp <= start_idx imp + 19)%nat /\
  (end_idx imp < List.length df)%nat /\
  atr_multiplier self * atr <= net_displacement df (start_idx imp) (end_idx imp) /\
  (direction imp = "BULLISH"%string <->
     close (row df (start_idx imp)) < close (row df (end_idx imp))) /\
  (direction imp = "BEARISH"%string <->
     ~ close (row df (start_idx imp)) < close (row df (end_idx imp))) /\
  (strength imp = "HIGH"%string \/ strength imp = "MEDIUM"%string).
Proof.
  intro H. destruct (find_major_impulse_inv self df atr) as [[best mm] [E I]].
  rewrite E in H. cbn [fst] in H. injection H as ->.
  unfold Inv in I. cbn [fst snd] in I.
  destruct I as [pre [post [L [Ev [St _]]]]].
  assert (Hin : In (start_idx imp, end_idx imp) (scan_pairs (List.length df))).
  { rewrite L. apply in_app_mid. }
  pose proof Hin as Hr. apply in_scan_pairs in Hr.
  assert (R : (start_idx imp <= end_idx imp < List.length df)%nat) by lia.
  destruct (eval_pair_some self df atr _ _ _ _ R Ev) as [[S1 _] [Dd _]].
  split; [lia|]. split; [lia|]. split; [exact S1|].
  rewrite Dd. unfold direction_of.
  destruct (Qltb (close (row df (start_idx imp))) (close (row df (end_idx imp)))) eqn:Q.
  - apply Qltb_iff in Q. repeat split; auto; try discriminate.
    + intro C. contradiction.
    + destruct (Qltb (2 * atr) mm); auto.
  - apply Qltb_false in Q.
    assert (NQ : ~ close (row df (start_idx imp)) < close (row df (end_idx imp)))
      by (intro C; apply (Qlt_not_le _ _ C Q)).
    repeat split; auto; try discriminate.
    + intro C. contradiction.
    + destruct (Qltb (2 * atr) mm); auto.
Qed.

Lemma C10_impulse_well_formed_witness :
  find_major_impulse ZoneDetector_default Samples.df_c2 2 =
    Ok (Some {| direction := "BULLISH"; start_idx := 3; end_idx := 6; strength := "HIGH";
                start_time := "t"; end_time := "t" |}) /\
  (3 + 3 <= 6 <= 3 + 19)%nat /\ (6 < List.length Samples.df_c2)%nat /\
  atr_multiplier ZoneDetector_default * 2 <= net_displacement Samples.df_c2 3 6 /\
  ("BULLISH"%string = "BULLISH"%string <-> close (row Samples.df_c2 3) < close (row Samples.df_c2 6)) /\
  ("BULLISH"%string = "BEARISH"%string <-> ~ close (row Samples.df_c2 3) < close (row Samples.df_c2 6)) /\
  ("HIGH"%string = "HIGH"%string \/ "HIGH"%string = "MEDIUM"%string).
Proof.
  assert (E : find_major_impulse ZoneDetector_default Samples.df_c2 2 =
    Ok (Some {| direction := "BULLISH"; start_idx := 3; end_idx := 6; strength := "HIGH";
                start_time := "t"; end_time := "t" |})) by (vm_compute; reflexivity).
  split; [exact E|]. exact (C10_impulse_well_formed _ _ _ _ E).
Defined.

(** The window tests of the specification, for a window [w] and candidate
    bounds [lo], [hi]: [lo] is the minimum low and [hi] the maximum high of
    the window, the window is compressed (its range is below 2.5 times the
    mean candle range) and balanced (the move from its first to its last
    close is below half its range). *)
Definition mean_range (w : list candle) : Q :=
  qsum (map (fun c => high c - low c) w) / inject_Z (Z.of_nat (List.length w)).

Definition qualifies (w : list candle) (lo hi : Q) : Prop :=
  (forall c, In c w -> lo <= low c) /\ In lo (map low w) /\
  (forall c, In c w -> high c <= hi) /\ In hi (map high w) /\
  hi - lo < (5 # 2) * mean_range w /\
  Qabs (close (last w dflt) - close (hd dflt w)) < (1 # 2) * (hi - lo).

Lemma iloc_last_ok (w : list candle) : w <> [] -> iloc_last w = Ok (last w dflt).
Proof.
  intro H. unfold iloc_last. rewrite (app_removelast_last dflt H) at 1.
  rewrite rev_app_distr. reflexivity.
Qed.

Lemma qmin_unique (l : list Q) m lo :
  qmin l = Some m -> (forall y, In y l -> lo <= y) -> In lo l -> lo == m.
Proof.
  intros E H1 H2. apply qmin_spec in E. destruct E as [Hm Hin].
  apply Qle_antisym; [apply H1; exact Hin|apply Hm; exact H2].
Qed.

Lemma qmax_unique (l : list Q) m hi :
  qmax l = Some m -> (forall y, In y l -> y <= hi) -> In hi l -> hi == m.
Proof.
  intros E H1 H2. apply qmax_spec in E. destruct E as [Hm Hin].
  apply Qle_antisym; [apply Hm; exact H2|apply H1; exact Hin].
Qed.

Lemma forall_map_low (w : list candle) lo :
  (forall c, In c w -> lo <= low c) -> forall y, In y (map low w) -> lo <= y.
Proof. intros H y Hy. apply in_map_iff in Hy. destruct Hy as [c [<- Hc]]. auto. Qed.

Lemma forall_map_high (w : list candle) hi :
  (forall c, In c w -> high c <= hi) -> forall y, In y (map high w) -> y <= hi.
Proof. intros H y Hy. apply in_map_iff in Hy. destruct Hy as [c [<- Hc]]. auto. Qed.

Lemma check_window_char df s lb :
  let w := zone_window df s lb in
  (check_window df s lb = Ok None /\ forall lo hi, ~ qualifies w lo hi) \/
  (exists z, check_window df s lb = Ok (Some z) /\ candle_count z = lb /\
             qualifies w (oz_zone_low z) (oz_zone_high z)).
Proof.
  intro w. unfold check_window. fold w.
  destruct w as [|c0 r] eqn:Ew.
  - left. split; [reflexivity|]. intros lo hi [_ [[] _]].
  - rewrite <- Ew.
    assert (NE : w <> []) by (rewrite Ew; discriminate).
    destruct (qmin (map low w)) as [m|] eqn:Emin.
    2:{ rewrite Ew in Emin. discriminate. }
    destruct (qmax (map high w)) as [M|] eqn:Emax.
    2:{ rewrite Ew in Emax. discriminate. }
    assert (Emean : qmean (map (fun c => high c - low c) w) = Some (mean_range w)).
    { rewrite Ew. unfold mean_range, qmean. cbn [map]. f_equal.
      rewrite <- (length_map (fun c => high c - low c) (c0 :: r)). reflexivity. }
    rewrite Emean.
    assert (Uq : forall lo hi, qualifies w lo hi -> lo == m /\ hi == M).
    { intros lo hi [Q1 [Q2 [Q3 [Q4 _]]]]. split.
      - apply (qmin_unique _ _ _ Emin); [apply forall_map_low; exact Q1|exact Q2].
      - apply (qmax_unique _ _ _ Emax); [apply forall_map_high; exact Q3|exact Q4]. }
    destruct (Qltb (M - m) (mean_range w * (5 # 2))) eqn:C1.
    + apply Qltb_iff in C1.
      assert (Ef : iloc_first w = Ok (hd dflt w)) by (rewrite Ew; reflexivity).
      rewrite Ef, (iloc_last_ok w NE). cbn [bind].
      destruct (Qltb (Qabs (close (last w dflt) - close (hd dflt w))) ((M - m) * (1 # 2))) eqn:C2.
      * apply Qltb_iff in C2. right. eexists. split; [reflexivity|]. split; [reflexivity|].
        cbn [oz_zone_low oz_zone_high].
        apply qmin_spec in Emin. apply qmax_spec in Emax.
        destruct Emin as [Hm Hmin]. destruct Emax as [HM HMax].
        split; [intros c Hc; apply Hm; apply in_map; exact Hc|].
        split; [exact Hmin|].
        split; [intros c Hc; apply HM; apply in_map; exact Hc|].
        split; [exact HMax|]. split; lra.
      * apply Qltb_false in C2. left. split; [reflexivity|].
        intros lo hi Hq. destruct (Uq lo hi Hq) as [U1 U2].
        destruct Hq as [_ [_ [_ [_ [_ Q6]]]]]. lra.
    + apply Qltb_false in C1. left. split; [reflexivity|].
      intros lo hi Hq. destruct (Uq lo hi Hq) as [U1 U2].
      destruct Hq as [_ [_ [_ [_ [Q5 _]]]]]. lra.
Qed.

Lemma origin_loop_spec df s l : exists r, origin_loop df s l = Ok r /\
  match r with
  | Some z => exists pre lb post, l = pre ++ lb :: post /\ candle_count z = lb /\
      qualifies (zone_window df s lb) (oz_zone_low z) (oz_zone_high z) /\
      forall lb', In lb' pre -> forall lo hi, ~ qualifies (zone_window df s lb') lo hi
  | None => forall lb, In lb l -> forall lo hi, ~ qualifies (zone_window df s lb) lo hi
  end.
Proof.
  induction l as [|lb l IH].
  - exists None. split; [reflexivity|]. intros lb [].
  - cbn [origin_loop].
    destruct (check_window_char df s lb) as [[E N]|[z [E [Cc Q]]]]; rewrite E; cbn [bind].
    + destruct IH as [r [Er Hr]]. exists r. split; [exact Er|]. destruct r as [z|].
      * destruct Hr as [pre [lb0 [post [L [Cc [Q Hpre]]]]]].
        exists (lb :: pre), lb0, post. rewrite L. split; [reflexivity|].
        split; [exact Cc|]. split; [exact Q|].
        intros lb' [<-|Hin]; [exact N|apply Hpre; exact Hin].
      * intros lb' [<-|Hin]; [exact N|apply Hr; exact Hin].
    + exists (Some z). split; [reflexivity|]. exists [], lb, l. split; [reflexivity|].
      split; [exact Cc|]. split; [exact Q|]. intros lb' [].
Qed.

Lemma seq_split a n pre x post :
  seq a n = pre ++ x :: post ->
  x = (a + List.length pre)%nat /\ forall y, In y pre <-> (a <= y < x)%nat.
Proof.
  revert a n. induction pre as [|p pre IH]; intros a n E.
  - destruct n; cbn in E; [discriminate|]. injection E as -> _.
    split; [cbn; lia|]. intros y. cbn. lia.
  - destruct n; cbn in E; [discriminate|]. injection E as -> E.
    destruct (IH _ _ E) as [Hx Hy]. split; [cbn; lia|].
    intros y. cbn. rewrite Hy. lia.
Qed.

(** C6: [find_origin_zone] gives no zone when the impulse starts before
    [zone_candles_min]; otherwise it returns the zone of the smallest window
    size [lb], between [zone_candles_min] and [zone_candles_max] (and at most
    the start index), whose window of [lb] candles before the impulse start
    is compressed and balanced, with [zone_low] and [zone_high] the minimum
    low and maximum high of that window; no zone when no window size
    qualifies. *)
Theorem C6_find_origin_zone_first_window (self : ZoneDetector) (df : list candle) (s : nat) :
  exists r, find_origin_zone self df s = Ok r /\
  ((s < zone_candles_min self)%nat -> r = None) /\
  match r with
  | Some z =>
      let lb := candle_count z in
      (zone_candles_min self <= lb <= zone_candles_max self)%nat /\ (lb <= s)%nat /\
      qualifies (zone_window df s lb) (oz_zone_low z) (oz_zone_high z) /\
      forall lb', (zone_candles_min self <= lb' < lb)%nat ->
        forall lo hi, ~ qualifies (zone_window df s lb') lo hi
  | None =>
      forall lb, (zone_candles_min self <= lb <= zone_candles_max self)%nat -> (lb <= s)%nat ->
        forall lo hi, ~ qualifies (zone_window df s lb) lo hi
  end.
Proof.
  unfold find_origin_zone.
  destruct (s <? zone_candles_min self)%nat eqn:Hs.
  - apply Nat.ltb_lt in Hs. exists None. split; [reflexivity|]. split; [reflexivity|].
    intros lb Hlb Hls. lia.
  - apply Nat.ltb_ge in Hs.
    destruct (origin_loop_spec df s (lookbacks self s)) as [r [E Hr]].
    exists r. split; [exact E|]. split; [intro; lia|].
    unfold lookbacks in Hr. destruct r as [z|].
    + destruct Hr as [pre [lb [post [L [Cc [Q Hpre]]]]]].
      assert (Hin : In lb (seq (zone_candles_min self)
                       (Nat.min (zone_candles_max self + 1) (s + 1) - zone_candles_min self))).
      { rewrite L. apply in_app_mid. }
      apply in_seq in Hin. destruct (seq_split _ _ _ _ _ L) as [_ Hy].
      cbv zeta. rewrite Cc. split; [lia|]. split; [lia|]. split; [exact Q|].
      intros lb' Hlb'. apply Hpre. apply Hy. exact Hlb'.
    + intros lb H1 H2. apply Hr. apply in_seq. lia.
Qed.

Lemma impulse_in_scan self df atr imp :
  find_major_impulse self df atr = Ok (Some imp) ->
  In (start_idx imp, end_idx imp) (scan_pairs (List.length df)).
Proof.
  intro H. destruct (find_major_impulse_inv self df atr) as [[best mm] [E I]].
  rewrite E in H. cbn [fst] in H. injection H as ->.
  unfold Inv in I. cbn [fst snd] in I. destruct I as [pre [post [L _]]].
  rewrite L. apply in_app_mid.
Qed.

Lemma find_major_impulse_ok self df atr : exists r, find_major_impulse self df atr = Ok r.
Proof.
  destruct (find_major_impulse_inv self df atr) as [acc [E _]]. eauto.
Qed.

Lemma find_origin_zone_ok self df s : exists r, find_origin_zone self df s = Ok r.
Proof.
  unfold find_origin_zone. destruct (s <? zone_candles_min self)%nat; [eauto|].
  destruct (origin_loop_spec df s (lookbacks self s)) as [r [E _]]. eauto.
Qed.

Lemma validate_zone_ok df oz imp : exists b, validate_zone df oz imp = Ok b.
Proof.
  unfold validate_zone. destruct (List.length df <=? end_idx imp)%nat eqn:H; [eauto|].
  apply Nat.leb_gt in H. rewrite loc_row by exact H. cbn [bind].
  destruct (Qltb _ _); eauto.
Qed.




(** C2: on [Samples.df_c2] the impulse ends on row 6 and the origin zone is
    99..101 (midpoint 100, range 2); the candle after the impulse end, row 7,
    closes at 100, at distance 0 from the midpoint, below twice the range,
    and still [extract_zones] returns the zone. *)
Lemma C2_next_candle_close_not_checked :
  (20 <= List.length Samples.df_c2)%nat /\
  find_major_impulse ZoneDetector_default Samples.df_c2 (calculate_atr Samples.df_c2 14)
    = Ok (Some Samples.imp_c2) /\
  find_origin_zone ZoneDetector_default Samples.df_c2 (start_idx Samples.imp_c2) = Ok (Some Samples.oz_c2) /\
  Qabs (close (row Samples.df_c2 (S (end_idx Samples.imp_c2))) - (oz_zone_low Samples.oz_c2 + oz_zone_high Samples.oz_c2) / 2)
    < 2 * (oz_zone_high Samples.oz_c2 - oz_zone_low Samples.oz_c2) /\
  extract_zones ZoneDetector_default Samples.df_c2 "X" "2026-01-28" "15minute" = Ok [Samples.zone_c2].
Proof.
  split; [vm_compute; lia|].
  split; [vm_compute; reflexivity|]. split; [vm_compute; reflexivity|].
  split; [vm_compute; reflexivity|vm_compute; reflexivity].
Qed.

(** C2 (as the code does it): once an impulse and an origin zone are found
    in a series of at least 20 candles, [extract_zones] returns the zone
    exactly when the close of the impulse's end candle lies at least twice
    the zone's range away from the zone's midpoint, and the empty list
    otherwise. *)
Theorem C2_validation_at_impulse_end (self : ZoneDetector) (df : list candle)
    (sym fd tf : string) (imp : impulse) (oz : origin_zone) :
  (20 <= List.length df)%nat ->
  find_major_impulse self df (calculate_atr df 14) = Ok (Some imp) ->
  find_origin_zone self df (start_idx imp) = Ok (Some oz) ->
  let d := Qabs (close (row df (end_idx imp)) - (oz_zone_low oz + oz_zone_high oz) / 2) in
  (2 * (oz_zone_high oz - oz_zone_low oz) <= d ->
     extract_zones self df sym fd tf =
       Ok [{| symbol := sym; fetch_date := fd; timeframe := tf;
              zone_type := direction imp; zone_low := oz_zone_low oz;
              zone_high := oz_zone_high oz; impulse_strength := strength imp;
              impulse_start_time := start_time imp; impulse_end_time := end_time imp |}]) /\
  (d < 2 * (oz_zone_high oz - oz_zone_low oz) -> extract_zones self df sym fd tf = Ok []).
Proof.
  intros Hn Hi Ho d.
  assert (Hr : (end_idx imp < List.length df)%nat).
  { apply impulse_in_scan in Hi. apply in_scan_pairs in Hi. lia. }
  unfold extract_zones.
  replace (List.length df <? 20)%nat with false by (symmetry; apply Nat.ltb_ge; lia).
  rewrite Hi. cbn [bind]. rewrite Ho. cbn [bind].
  unfold validate_zone.
  replace (List.length df <=? end_idx imp)%nat with false by (symmetry; apply Nat.leb_gt; lia).
  rewrite loc_row by exact Hr. cbn [bind]. fold d.
  split; intro H.
  - destruct (Qltb d ((oz_zone_high oz - oz_zone_low oz) * 2)) eqn:C.
    + apply Qltb_iff in C. exfalso. lra.
    + reflexivity.
  - destruct (Qltb d ((oz_zone_high oz - oz_zone_low oz) * 2)) eqn:C.
    + reflexivity.
    + apply Qltb_false in C. exfalso. lra.
Qed.

Lemma C2_validation_at_impulse_end_witness :
  (20 <= List.length Samples.df_c2)%nat /\
  find_major_impulse ZoneDetector_default Samples.df_c2 (calculate_atr Samples.df_c2 14)
    = Ok (Some Samples.imp_c2) /\
  find_origin_zone ZoneDetector_default Samples.df_c2 (start_idx Samples.imp_c2) = Ok (Some Samples.oz_c2) /\
  extract_zones ZoneDetector_default Samples.df_c2 "X" "2026-01-28" "15minute" = Ok [Samples.zone_c2].
Proof.
  assert (H1 : (20 <= List.length Samples.df_c2)%nat) by (vm_compute; lia).
  assert (H2 : find_major_impulse ZoneDetector_default Samples.df_c2 (calculate_atr Samples.df_c2 14)
    = Ok (Some Samples.imp_c2)) by (vm_compute; reflexivity).
  assert (H3 : find_origin_zone ZoneDetector_default Samples.df_c2 (start_idx Samples.imp_c2) = Ok (Some Samples.oz_c2))
    by (vm_compute; reflexivity).
  split; [exact H1|]. split; [exact H2|]. split; [exact H3|].
  apply (proj1 (C2_validation_at_impulse_end ZoneDetector_default Samples.df_c2
                  "X" "2026-01-28" "15minute" Samples.imp_c2 Samples.oz_c2 H1 H2 H3)).
  vm_compute. discriminate.
Defined.

(** C8: [extract_zones] never raises: it returns a list for every input, and
    the list is empty when the series has fewer than 20 candles, when no
    impulse is found, when no origin zone is found, and when the zone fails
    the validation. *)
Theorem C8_extract_zones_no_signal_is_empty (self : ZoneDetector) (df : list candle)
    (sym fd tf : string) :
  let atr := calculate_atr df 14 in
  exists zs, extract_zones self df sym fd tf = Ok zs /\
  ((List.length df < 20)%nat -> zs = []) /\
  (find_major_impulse self df atr = Ok None -> zs = []) /\
  (forall imp, find_major_impulse self df atr = Ok (Some imp) ->
     find_origin_zone self df (start_idx imp) = Ok None -> zs = []) /\
  (forall imp oz, find_major_impulse self df atr = Ok (Some imp) ->
     find_origin_zone self df (start_idx imp) = Ok (Some oz) ->
     validate_zone df oz imp = Ok false -> zs = []).
Proof.
  cbv zeta. unfold extract_zones. cbv zeta.
  destruct (List.length df <? 20)%nat eqn:Hs.
  { exists []. repeat split; auto. }
  apply Nat.ltb_ge in Hs.
  destruct (find_major_impulse_ok self df (calculate_atr df 14)) as [ri Ei]. rewrite Ei. cbn [bind].
  destruct ri as [imp|].
  2:{ exists []. repeat split; auto. }
  destruct (find_origin_zone_ok self df (start_idx imp)) as [ro Eo]. rewrite Eo. cbn [bind].
  destruct ro as [oz|].
  2:{ exists []. repeat split; auto. }
  destruct (validate_zone_ok df oz imp) as [b Ev]. rewrite Ev. cbn [bind].
  destruct b; cbn [negb].
  - eexists. split; [reflexivity|]. split; [intro; lia|]. split; [congruence|].
    split; [intros imp' E1 E2; injection E1 as <-; congruence|].
    intros imp' oz' E1 E2 E3. injection E1 as <-. congruence.
  - exists []. repeat split; auto.
Qed.

End Detector.

(** ** What [_calculate_proximity] can report *)

Module ProximityExtra.

(** The (status, reaction) pairs [_calculate_proximity] can produce. *)
Definition valid_pair (s r : string) : Prop :=
  ((s = "INSIDE_BULLISH" /\ r = "Holding") \/ (s = "INSIDE_BEARISH" /\ r = "Holding") \/
  (s = "NEAR" /\ r = "First Touch") \/ (s = "NEAR" /\ r = "No Touch Yet") \/
  (s = "FAR" /\ r = "No Touch Yet"))%string.

(** The signed percentage distance of [ltp] from the midpoint of a zone. *)
Definition dist (ltp : Q) (z : zone) : Q := ((ltp - zone_mid z) / zone_mid z) * 100.

Lemma loop_inv self ltp (P : zone -> Prop) zones : forall s cz d r s' cz' d' r',
  proximity_loop self ltp zones (s, cz, d, r) = Ok (s', cz', d', r') ->
  (forall z, In z zones -> P z) ->
  valid_pair s r -> (forall z, cz = Some z -> P z) -> (cz = None -> d = None) ->
  valid_pair s' r' /\ (forall z, cz' = Some z -> P z) /\ (cz' = None -> d' = None) /\
  (zones <> [] \/ cz <> None -> cz' <> None).
Proof.
  induction zones as [|z rest IH]; intros s cz d r s' cz' d' r' E HP V Hc Hd.
  - cbn in E. injection E as <- <- <- <-. repeat split; auto.
    intros [C|C]; [congruence|exact C].
  - cbn [proximity_loop] in E.
    destruct (Qeq_bool _ 0); [discriminate|].
    destruct (Qle_bool (zone_low z) ltp && Qle_bool ltp (zone_high z)).
    + injection E as <- <- <- <-. split.
      * unfold valid_pair. destruct (String.eqb (zone_type z) "BULLISH"); auto.
      * split; [intros z' [=<-]; apply HP; left; reflexivity|].
        split; [discriminate|]. intros _. discriminate.
    + destruct (lt_min _ d) eqn:L.
      * set (sr := if Qle_bool _ _ then _ else _) in E.
        destruct (IH (fst sr) (Some z) _ (snd sr) s' cz' d' r' E) as [V' [Hc' [Hd' Hn]]].
        -- intros z' H. apply HP. right. exact H.
        -- unfold valid_pair, sr. destruct (Qle_bool _ _); [|destruct (Qltb _ _)]; cbn; auto 6.
        -- intros z' [=<-]. apply HP. left. reflexivity.
        -- discriminate.
        -- split; [exact V'|]. split; [exact Hc'|]. split; [exact Hd'|].
           intros _. apply Hn. right. discriminate.
      * destruct cz as [z0|].
        -- destruct (IH s (Some z0) d r s' cz' d' r' E) as [V' [Hc' [Hd' Hn]]]; auto.
           ++ intros z' H. apply HP. right. exact H.
           ++ split; [exact V'|]. split; [exact Hc'|]. split; [exact Hd'|].
              intros _. apply Hn. right. discriminate.
        -- rewrite (Hd eq_refl) in L. discriminate.
Qed.

(** [_calculate_proximity] only ever reports one of five (status, reaction)
    pairs: INSIDE_BULLISH or INSIDE_BEARISH with "Holding", NEAR with
    "First Touch" or "No Touch Yet", FAR with "No Touch Yet" (never
    "Rejected" or "Broken"); the closest zone is absent exactly when the
    zone list is empty, and is otherwise one of the given zones. *)
Theorem calculate_proximity_outcomes (self : ExecuteDayMonitor) (ltp : Q) (zones : list zone)
    (s : string) (cz : option zone) (d : option Q) (r : string) :
  _calculate_proximity self ltp zones = Ok (s, cz, d, r) ->
  valid_pair s r /\ (cz = None <-> zones = []) /\ (forall z, cz = Some z -> In z zones).
Proof.
  intro E. destruct zones as [|z0 rest].
  - cbn in E. injection E as <- <- <- <-.
    split; [unfold valid_pair; auto 6|]. split; [tauto|]. discriminate.
  - unfold _calculate_proximity in E.
    destruct (loop_inv self ltp (fun z => In z (z0 :: rest)) (z0 :: rest) _ _ _ _ s cz d r E)
      as [V [Hc [_ Hn]]]; auto.
    + unfold valid_pair. auto 6.
    + discriminate.
    + split; [exact V|]. split; [|exact Hc].
      split; [intro C; exfalso; apply Hn; [left; discriminate|exact C]|discriminate].
Qed.


Lemma calculate_proximity_outcomes_witness :
  _calculate_proximity ExecuteDayMonitor_init 705 [Proximity.mk_zone "BEARISH" 700 720] =
    Ok ("INSIDE_BEARISH"%string, Some (Proximity.mk_zone "BEARISH" 700 720),
        Some (-2000 # 2840), "Holding"%string) /\
  valid_pair "INSIDE_BEARISH" "Holding" /\
  (Some (Proximity.mk_zone "BEARISH" 700 720) = None <-> [Proximity.mk_zone "BEARISH" 700 720] = []) /\
  (forall z, Some (Proximity.mk_zone "BEARISH" 700 720) = Some z ->
             In z [Proximity.mk_zone "BEARISH" 700 720]).
Proof.
  assert (E : _calculate_proximity ExecuteDayMonitor_init 705 [Proximity.mk_zone "BEARISH" 700 720] =
    Ok ("INSIDE_BEARISH"%string, Some (Proximity.mk_zone "BEARISH" 700 720),
        Some (-2000 # 2840), "Holding"%string)) by (vm_compute; reflexivity).
  split; [exact E|]. exact (calculate_proximity_outcomes _ _ _ _ _ _ _ E).
Defined.

(** The status and reaction [_calculate_proximity] attaches to a closest
    zone at absolute distance [a] (the branches of the loop body). *)
Definition classify (self : ExecuteDayMonitor) (a : Q) : string * string :=
  if Qle_bool a (near_threshold self) then ("NEAR", "First Touch")%string
  else if Qltb (far_threshold self) a then ("FAR", "No Touch Yet")%string
  else ("NEAR", "No Touch Yet")%string.

(** The loop state after the zones [seen], none of which contains [ltp]:
    the initial state, or the first zone of least absolute distance. *)
Definition Good (self : ExecuteDayMonitor) (ltp : Q) (seen : list zone) (st : proximity) : Prop :=
  let '(s, cz, d, r) := st in
  match cz with
  | None => seen = [] /\ d = None
  | Some z => exists pre post, seen = pre ++ z :: post /\ d = Some (dist ltp z) /\
      (s, r) = classify self (Qabs (dist ltp z)) /\
      (forall w, In w pre -> Qabs (dist ltp z) < Qabs (dist ltp w)) /\
      (forall w, In w post -> Qabs (dist ltp z) <= Qabs (dist ltp w))
  end.

Lemma loop_nearest self ltp zones : forall seen st,
  Good self ltp seen st ->
  (forall z, In z zones -> ~ zone_mid z == 0 /\ ~ (zone_low z <= ltp <= zone_high z)) ->
  exists st', proximity_loop self ltp zones st = Ok st' /\ Good self ltp (seen ++ zones) st'.
Proof.
  induction zones as [|z rest IH]; intros seen st G H.
  - exists st. rewrite app_nil_r. auto.
  - destruct (H z (or_introl eq_refl)) as [Hm Hin].
    cbn [proximity_loop].
    destruct (Qeq_bool ((zone_low z + zone_high z) / 2) 0) eqn:E0.
    { apply Qeq_bool_iff in E0. contradiction. }
    destruct (Qle_bool (zone_low z) ltp && Qle_bool ltp (zone_high z)) eqn:E1.
    { apply andb_true_iff in E1. destruct E1 as [E1 E2].
      apply Qle_bool_iff in E1. apply Qle_bool_iff in E2. tauto. }
    destruct st as [[[s cz] d] r].
    change (((ltp - (zone_low z + zone_high z) / 2) / ((zone_low z + zone_high z) / 2)) * 100)
      with (dist ltp z).
    assert (Hr : forall w, In w rest -> ~ zone_mid w == 0 /\ ~ (zone_low w <= ltp <= zone_high w))
      by (intros w Hw; apply H; right; exact Hw).
    destruct (lt_min (Qabs (dist ltp z)) d) eqn:L.
    + change (if Qle_bool (Qabs (dist ltp z)) (near_threshold self) then _ else _)
        with (classify self (Qabs (dist ltp z))).
      destruct (IH (seen ++ [z]) (fst (classify self (Qabs (dist ltp z))), Some z,
                  Some (dist ltp z), snd (classify self (Qabs (dist ltp z))))) as [st' [E' G']].
      * exists seen, []. split; [reflexivity|]. split; [reflexivity|].
        split; [destruct (classify _ _); reflexivity|]. split; [|intros w []].
        intros w Hw. cbn in G. destruct cz as [z0|].
        -- destruct G as [pre [post [Hs [Hd [_ [Hpre Hpost]]]]]].
           subst d. cbn in L. apply Qltb_iff in L.
           rewrite Hs in Hw. apply in_app_or in Hw. destruct Hw as [Hw|[<-|Hw]].
           ++ apply (Qlt_trans _ _ _ L). apply Hpre. exact Hw.
           ++ exact L.
           ++ apply (Qlt_le_trans _ _ _ L). apply Hpost. exact Hw.
        -- destruct G as [-> _]. destruct Hw.
      * exact Hr.
      * exists st'. split; [exact E'|]. rewrite <- app_assoc in G'. exact G'.
    + destruct cz as [z0|].
      2:{ cbn in G. destruct G as [_ ->]. discriminate. }
      destruct (IH (seen ++ [z]) (s, Some z0, d, r)) as [st' [E' G']].
      * cbn in G |- *. destruct G as [pre [post [Hs [Hd [Hc [Hpre Hpost]]]]]].
        exists pre, (post ++ [z]). split; [rewrite Hs, <- app_assoc; reflexivity|].
        split; [exact Hd|]. split; [exact Hc|]. split; [exact Hpre|].
        intros w Hw. apply in_app_or in Hw. destruct Hw as [Hw|[<-|[]]].
        -- apply Hpost. exact Hw.
        -- subst d. cbn in L. apply Qltb_false in L. exact L.
      * exact Hr.
      * exists st'. split; [exact E'|]. rewrite <- app_assoc in G'. exact G'.
Qed.

(** When no zone contains [ltp] (and no midpoint is 0), [_calculate_proximity]
    returns the first zone of least absolute percentage distance with its
    signed distance, and classifies that distance: NEAR with "First Touch"
    up to [near_threshold], NEAR with "No Touch Yet" up to [far_threshold],
    FAR with "No Touch Yet" beyond. *)
Theorem calculate_proximity_nearest (self : ExecuteDayMonitor) (ltp : Q) (zones : list zone) :
  zones <> [] ->
  (forall z, In z zones -> ~ zone_mid z == 0 /\ ~ (zone_low z <= ltp <= zone_high z)) ->
  exists pre z post, zones = pre ++ z :: post /\
    (forall w, In w pre -> Qabs (dist ltp z) < Qabs (dist ltp w)) /\
    (forall w, In w post -> Qabs (dist ltp z) <= Qabs (dist ltp w)) /\
    exists s r, _calculate_proximity self ltp zones = Ok (s, Some z, Some (dist ltp z), r) /\
    let a := Qabs (dist ltp z) in
    (a <= near_threshold self -> s = "NEAR"%string /\ r = "First Touch"%string) /\
    (near_threshold self < a -> a <= far_threshold self ->
       s = "NEAR"%string /\ r = "No Touch Yet"%string) /\
    (near_threshold self < a -> far_threshold self < a ->
       s = "FAR"%string /\ r = "No Touch Yet"%string).
Proof.
  intros Hne H.
  destruct (loop_nearest self ltp zones [] ("FAR"%string, None, None, "No Touch Yet"%string))
    as [[[[s cz] d] r] [E G]]; [cbn; auto|exact H|].
  cbn [app] in G. unfold Good in G. destruct cz as [z|].
  2:{ destruct G as [-> _]. contradiction. }
  destruct G as [pre [post [Hs [Hd [Hc [Hpre Hpost]]]]]].
  exists pre, z, post. split; [exact Hs|]. split; [exact Hpre|]. split; [exact Hpost|].
  exists s, r. split.
  - unfold _calculate_proximity. destruct zones; [contradiction|]. rewrite E, Hd. reflexivity.
  - cbv zeta. unfold classify in Hc. split; [|split].
    + intro A. apply Qle_bool_iff in A. rewrite A in Hc. injection Hc as -> ->. auto.
    + intros A B. destruct (Qle_bool _ _) eqn:C.
      { apply Qle_bool_iff in C. exfalso. lra. }
      destruct (Qltb _ _) eqn:D.
      { apply Qltb_iff in D. exfalso. lra. }
      injection Hc as -> ->. auto.
    + intros A B. destruct (Qle_bool _ _) eqn:C.
      { apply Qle_bool_iff in C. exfalso. lra. }
      apply Qltb_iff in B. rewrite B in Hc. injection Hc as -> ->. auto.
Qed.

Lemma calculate_proximity_nearest_witness :
  exists pre z post,
    [Proximity.mk_zone "BULLISH" 700 720; Proximity.mk_zone "BEARISH" 800 820] = pre ++ z :: post /\
    (forall w, In w pre -> Qabs (dist 690 z) < Qabs (dist 690 w)) /\
    (forall w, In w post -> Qabs (dist 690 z) <= Qabs (dist 690 w)) /\
    exists s r, _calculate_proximity ExecuteDayMonitor_init 690
                  [Proximity.mk_zone "BULLISH" 700 720; Proximity.mk_zone "BEARISH" 800 820]
                = Ok (s, Some z, Some (dist 690 z), r) /\
    let a := Qabs (dist 690 z) in
    (a <= near_threshold ExecuteDayMonitor_init -> s = "NEAR"%string /\ r = "First Touch"%string) /\
    (near_threshold ExecuteDayMonitor_init < a -> a <= far_threshold ExecuteDayMonitor_init ->
       s = "NEAR"%string /\ r = "No Touch Yet"%string) /\
    (near_threshold ExecuteDayMonitor_init < a -> far_threshold ExecuteDayMonitor_init < a ->
       s = "FAR"%string /\ r = "No Touch Yet"%string).
Proof.
  apply calculate_proximity_nearest; [discriminate|].
  intros z [<-|[<-|[]]]; split; cbn; try (intros [A B]; lra);
    intro C; vm_compute in C; discriminate.
Defined.

End ProximityExtra.

(** ** Trading days: the previous one, the Fetch Day, the days between two dates *)

Module TradingDays.
Import DateManager Calendar.
Local Open Scope Z_scope.

(** The ordinals of the 15 dates of [NSE_HOLIDAYS_2026]. *)
Definition holiday_ords : list Z :=
  [739642; 739678; 739705; 739708; 739709; 739720; 739737; 739843; 739847;
   739891; 739909; 739924; 739925; 739945; 739975].

Lemma holiday_strings :
  map strptime NSE_HOLIDAYS_2026 = map Ok holiday_ords.
Proof. vm_compute. reflexivity. Qed.

Lemma holiday_in x :
  1 <= x <= MAXORDINAL -> str_in (strftime x) NSE_HOLIDAYS_2026 = true -> In x holiday_ords.
Proof.
  intros Hx H. unfold str_in in H. apply existsb_exists in H.
  destruct H as [h [Hh E]]. apply String.eqb_eq in E.
  assert (Hm : In (strptime h) (map strptime NSE_HOLIDAYS_2026)) by (apply in_map; exact Hh).
  rewrite holiday_strings in Hm. apply in_map_iff in Hm.
  destruct Hm as [y [Ey Hy]].
  destruct (Z_lt_le_dec x (_ymd2ord 1000 1 1)) as [L|L].
  - rewrite <- E, (strptime_strftime_small x ltac:(lia)) in Ey. discriminate.
  - rewrite <- E, (strptime_strftime x ltac:(lia)) in Ey. injection Ey as ->. exact Hy.
Qed.

Lemma not_holiday_trading x :
  1 <= x <= MAXORDINAL -> weekday x < 5 -> ~ In x holiday_ords -> is_trading_day x = true.
Proof.
  intros Hx Hw Hn. unfold is_trading_day.
  replace (5 <=? weekday x) with false by (symmetry; apply Z.leb_gt; lia).
  destruct (str_in (strftime x) NSE_HOLIDAYS_2026) eqn:E; [|reflexivity].
  exfalso. apply Hn. apply holiday_in; assumption.
Qed.

Lemma weekday_near c : exists k, (k < 3)%nat /\ weekday (c - Z.of_nat k) < 5.
Proof.
  unfold weekday.
  destruct (Z_lt_le_dec ((c + 6) mod 7) 5).
  - exists 0%nat. split; [lia|]. replace (c - Z.of_nat 0) with c by lia. exact l.
  - destruct (Z.eq_dec ((c + 6) mod 7) 5).
    + exists 1%nat. split; [lia|]. replace (c - Z.of_nat 1 + 6) with (c + 6 + (-1)) by lia.
      rewrite Zplus_mod, e. change ((5 + (-1) mod 7) mod 7) with 4. lia.
    + exists 2%nat. split; [lia|]. replace (c - Z.of_nat 2 + 6) with (c + 6 + (-2)) by lia.
      assert (E6 : (c + 6) mod 7 = 6) by (pose proof (Z.mod_pos_bound (c + 6) 7); lia).
      rewrite Zplus_mod, E6. change ((6 + (-2) mod 7) mod 7) with 4. lia.
Qed.

(** Every window of ten consecutive days in 2026 (shifted by the holidays)
    holds a trading day. *)
Definition window_ok (c : Z) : bool :=
  existsb (fun k => is_trading_day (c - k)) (zseq 0 10).

Lemma window_check :
  forallb window_ok (zseq 739642 343) = true.
Proof. vm_compute. reflexivity. Qed.

Lemma window_trading c :
  1 <= c <= MAXORDINAL ->
  exists k, (k < 10)%nat /\ 1 <= c - Z.of_nat k /\ is_trading_day (c - Z.of_nat k) = true.
Proof.
  intro Hc.
  destruct (Z_lt_le_dec c 11) as [Hs|Hs].
  { exists (Z.to_nat (c - 1)). split; [lia|].
    replace (c - Z.of_nat (Z.to_nat (c - 1))) with 1 by lia.
    split; [lia|vm_compute; reflexivity]. }
  destruct (Z_lt_le_dec c 739642) as [Hl|Hl].
  2: destruct (Z_lt_le_dec c (739642 + 343)) as [Hh|Hh].
  - (* before the first holiday: a weekday among c, c-1, c-2 *)
    pose proof (weekday_near c) as Hk.
    destruct Hk as [k [Hk Hw]]. exists k. split; [lia|]. split; [lia|].
    apply not_holiday_trading; [lia|exact Hw|].
    intro H. repeat (destruct H as [H|H]; [lia|]). destruct H.
  - assert (W : window_ok c = true).
    { pose proof window_check as W. rewrite forallb_forall in W. apply W.
      apply in_zseq. lia. }
    unfold window_ok in W. apply existsb_exists in W. destruct W as [k [Hk Ht]].
    unfold zseq in Hk. apply in_map_iff in Hk. destruct Hk as [n [En Hn]].
    apply in_seq in Hn. exists n. split; [lia|]. subst k.
    replace (c - (0 + Z.of_nat n)) with (c - Z.of_nat n) in Ht by lia.
    split; [lia|exact Ht].
  - pose proof (weekday_near c) as Hk.
    destruct Hk as [k [Hk Hw]]. exists k. split; [lia|]. split; [lia|].
    apply not_holiday_trading; [lia|exact Hw|].
    intro H. repeat (destruct H as [H|H]; [lia|]). destruct H.
Qed.

(** [lookback] returns the first trading day at or below [current] when one
    lies within its [fuel] steps. *)
Lemma lookback_first date fuel : forall cur k,
  (k < fuel)%nat -> 1 <= cur - Z.of_nat k -> is_trading_day (cur - Z.of_nat k) = true ->
  exists r, lookback date fuel cur = Ok r /\ cur - Z.of_nat k <= r <= cur /\
            is_trading_day r = true /\ forall y, r < y <= cur -> is_trading_day y = false.
Proof.
  induction fuel as [|fuel IH]; intros cur k Hk H1 Ht; [lia|].
  cbn [lookback]. destruct (is_trading_day cur) eqn:Ec.
  - exists cur. split; [reflexivity|]. split; [lia|]. split; [exact Ec|]. intros y Hy. lia.
  - destruct k as [|k].
    { replace (cur - Z.of_nat 0) with cur in Ht by lia. congruence. }
    unfold sub_day. replace (cur - 1 <? 1) with false by (symmetry; apply Z.ltb_ge; lia).
    cbn [bind].
    destruct (IH (cur - 1) k) as [r [E [B [T N]]]]; [lia|lia|
      replace (cur - 1 - Z.of_nat k) with (cur - Z.of_nat (S k)) by lia; exact Ht|].
    exists r. split; [exact E|]. split; [lia|]. split; [exact T|].
    intros y Hy. destruct (Z.eq_dec y cur) as [->|Ne]; [exact Ec|]. apply N. lia.
Qed.

Lemma prev_trading_spec d :
  2 <= d <= MAXORDINAL ->
  exists r, get_previous_trading_day d = Ok r /\ r < d /\ is_trading_day r = true /\
            forall y, r < y < d -> is_trading_day y = false.
Proof.
  intro Hd. unfold get_previous_trading_day, sub_day.
  replace (d - 1 <? 1) with false by (symmetry; apply Z.ltb_ge; lia). cbn [bind].
  destruct (window_trading (d - 1)) as [k [Hk [H1 Ht]]]; [lia|].
  destruct (lookback_first d 10 (d - 1) k Hk H1 Ht) as [r [E [B [T N]]]].
  exists r. split; [exact E|]. split; [lia|]. split; [exact T|].
  intros y Hy. apply N. lia.
Qed.

(** [get_previous_trading_day] never takes its fallback: for every date
    from 0001-01-02 on it returns the latest trading day strictly before the
    date. *)
Theorem get_previous_trading_day_latest (d : Z) :
  2 <= d <= MAXORDINAL ->
  exists r, get_previous_trading_day d = Ok r /\ r < d /\ is_trading_day r = true /\
            forall y, r < y < d -> is_trading_day y = false.
Proof. exact (prev_trading_spec d). Qed.


(** [calculate_fetch_day] returns the second trading day before the
    execute day: a trading day [f] with exactly one trading day [t] strictly
    between [f] and the execute day, from 0001-01-03 on. *)
Theorem calculate_fetch_day_second_previous (s : string) (e : Z) :
  strptime s = Ok e -> 3 <= e ->
  exists f t, calculate_fetch_day s = Ok (strftime f) /\ f < t < e /\
    is_trading_day f = true /\ is_trading_day t = true /\
    forall y, f < y < e -> y <> t -> is_trading_day y = false.
Proof.
  intros Hs He. pose proof (strptime_bound s e Hs) as Hm.
  destruct (prev_trading_spec e) as [t [Et [Lt [Tt Nt]]]]; [lia|].
  assert (Ht2 : 2 <= t).
  { destruct (Z_lt_le_dec t 2) as [L|L]; [|exact L].
    assert (Hb : 1 <= t) by (apply get_previous_trading_day_bound in Et; lia).
    assert (E1 : t = 1) by lia. subst t.
    specialize (Nt 2 ltac:(lia)). vm_compute in Nt. discriminate. }
  destruct (prev_trading_spec t) as [f [Ef [Lf [Tf Nf]]]]; [lia|].
  exists f, t. split.
  - unfold calculate_fetch_day. rewrite Hs. cbn [bind go_back].
    rewrite Et. cbn [bind go_back]. rewrite Ef. reflexivity.
  - split; [lia|]. split; [exact Tf|]. split; [exact Tt|].
    intros y Hy Hne. destruct (Z_lt_le_dec y t).
    + apply Nf. lia.
    + apply Nt. lia.
Qed.

Lemma calculate_fetch_day_second_previous_witness :
  exists f t, calculate_fetch_day "2026-03-31" = Ok (strftime f) /\ f < t < 739706 /\
    is_trading_day f = true /\ is_trading_day t = true /\
    forall y, f < y < 739706 -> y <> t -> is_trading_day y = false.
Proof.
  apply (calculate_fetch_day_second_previous "2026-03-31" 739706);
    [vm_compute; reflexivity|lia].
Defined.

Lemma go_back_low e :
  e <= 2 -> exists m, go_back 2 e = Raise (OverflowError m).
Proof.
  intro He. destruct (Z.eq_dec e 2) as [->|Ne].
  - vm_compute. eauto.
  - cbn [go_back]. unfold get_previous_trading_day, sub_day.
    replace (e - 1 <? 1) with true by (symmetry; apply Z.ltb_lt; lia).
    cbn. eauto.
Qed.

(** For an execute day before 0001-01-03 there is no second earlier
    trading day: [calculate_fetch_day] raises OverflowError, and
    [validate_execute_day], which catches only ValueError, raises it too. *)
Theorem fetch_day_overflow_at_start (s : string) (e : Z) :
  strptime s = Ok e -> e <= 2 ->
  (exists m, calculate_fetch_day s = Raise (OverflowError m)) /\
  forall today, exists m, validate_execute_day today s = Raise (OverflowError m).
Proof.
  intros Hs He. destruct (go_back_low e He) as [m Em].
  assert (Ec : calculate_fetch_day s = Raise (OverflowError m)).
  { unfold calculate_fetch_day. rewrite Hs. cbn [bind]. rewrite Em. reflexivity. }
  split; [eauto|]. intro today. exists m.
  unfold validate_execute_day. rewrite Hs. cbn [bind]. rewrite Ec. reflexivity.
Qed.

Lemma fetch_day_overflow_at_start_witness :
  strptime "0001-01-02" = Ok 2 /\
  (exists m, calculate_fetch_day "0001-01-02" = Raise (OverflowError m)) /\
  forall today, exists m, validate_execute_day today "0001-01-02" = Raise (OverflowError m).
Proof.
  assert (Hs : strptime "0001-01-02" = Ok 2) by (vm_compute; reflexivity).
  split; [exact Hs|]. apply (fetch_day_overflow_at_start "0001-01-02" 2 Hs). lia.
Defined.

Lemma zseq_cons lo n : zseq lo (S n) = lo :: zseq (lo + 1) n.
Proof.
  unfold zseq. cbn [seq map]. f_equal; [lia|].
  rewrite <- seq_shift, map_map. apply map_ext. intro k. lia.
Qed.

Lemma strptime_nonneg s d : strptime s = Ok d -> 0 <= d.
Proof.
  unfold strptime. destruct (format_match s) as [[[[yt mt] dt] rest]|] eqn:F;
    [|discriminate].
  destruct (negb (rest =? "")%string); [discriminate|].
  destruct (int_of yt <? 1) eqn:E1; [discriminate|].
  destruct (_days_in_month (int_of yt) (int_of mt) <? int_of dt) eqn:E2; [discriminate|].
  intro H. inversion H; subst d. clear H.
  apply Z.ltb_ge in E1. apply Z.ltb_ge in E2.
  pose proof (int_of_acc_nonneg 0 dt ltac:(lia)) as Hd. fold (int_of dt) in Hd.
  assert (Hm : 1 <= int_of mt <= 12) by (apply (days_in_month_range (int_of yt)); lia).
  assert (Hb : 0 <= _DAYS_BEFORE_MONTH (int_of mt)).
  { destruct (int_of mt) as [|p|p]; try lia.
    repeat (match goal with p : positive |- _ => destruct p end; try lia;
            try (vm_compute; discriminate)). }
  unfold _ymd2ord, _days_before_year, _days_before_month.
  cbv zeta. set (y1 := int_of yt - 1).
  assert (0 <= y1 / 4) by (apply Z.div_pos; lia).
  assert (0 <= y1 / 400) by (apply Z.div_pos; lia).
  assert (y1 / 100 <= y1) by (apply Z.div_le_upper_bound; lia).
  destruct ((int_of mt >? 2) && _is_leap (int_of yt)); lia.
Qed.

Lemma days_between_loop_ok fuel : forall cur end_dt,
  end_dt < MAXORDINAL -> end_dt < cur + Z.of_nat fuel ->
  days_between_loop fuel cur end_dt =
    Ok (map strftime (filter is_trading_day (zseq cur (Z.to_nat (end_dt - cur + 1))))).
Proof.
  induction fuel as [|fuel IH]; intros cur end_dt Hm Hf; cbn [days_between_loop].
  - replace (Z.to_nat (end_dt - cur + 1)) with 0%nat by lia. reflexivity.
  - destruct (cur <=? end_dt) eqn:C.
    + apply Z.leb_le in C. unfold add_day.
      replace (MAXORDINAL <? cur + 1) with false by (symmetry; apply Z.ltb_ge; lia).
      cbn [bind]. rewrite (IH (cur + 1) end_dt Hm) by lia. cbn [bind].
      replace (Z.to_nat (end_dt - cur + 1)) with (S (Z.to_nat (end_dt - (cur + 1) + 1))) by lia.
      rewrite zseq_cons. cbn [filter].
      destruct (is_trading_day cur); reflexivity.
    + apply Z.leb_gt in C.
      replace (Z.to_nat (end_dt - cur + 1)) with 0%nat by lia. reflexivity.
Qed.

Lemma days_between_loop_overflow fuel : forall cur,
  cur <= MAXORDINAL -> MAXORDINAL < cur + Z.of_nat fuel ->
  exists m, days_between_loop fuel cur MAXORDINAL = Raise (OverflowError m).
Proof.
  induction fuel as [|fuel IH]; intros cur H1 H2; [lia|].
  cbn [days_between_loop]. replace (cur <=? MAXORDINAL) with true by (symmetry; apply Z.leb_le; lia).
  unfold add_day. destruct (MAXORDINAL <? cur + 1) eqn:C; [cbn; eauto|].
  apply Z.ltb_ge in C. cbn [bind]. destruct (IH (cur + 1)) as [m Em]; [lia|lia|].
  rewrite Em. cbn [bind]. eauto.
Qed.

(** [get_trading_days_between] lists, in increasing order and formatted by
    [strftime('%Y-%m-%d')], exactly the trading days from the start date to
    the end date inclusive (none when the start is after the end), as long as
    the end date is before 9999-12-31; each listed string is the formatting
    of a trading day of that range, and parses back to it when that day is
    from 1000-01-01 on (earlier years are written with fewer than four
    digits). *)
Theorem get_trading_days_between_spec (s1 s2 : string) (a b : Z) :
  strptime s1 = Ok a -> strptime s2 = Ok b -> b < MAXORDINAL ->
  get_trading_days_between s1 s2 =
    Ok (map strftime (filter is_trading_day (zseq a (Z.to_nat (b - a + 1))))) /\
  forall x, In x (map strftime (filter is_trading_day (zseq a (Z.to_nat (b - a + 1))))) ->
    exists t, x = strftime t /\ a <= t <= b /\ is_trading_day t = true /\
      (_ymd2ord 1000 1 1 <= t -> strptime x = Ok t).
Proof.
  intros H1 H2 Hb. split.
  - unfold get_trading_days_between. rewrite H1, H2. cbn [bind].
    apply days_between_loop_ok; [exact Hb|lia].
  - intros x Hx. apply in_map_iff in Hx. destruct Hx as [t [<- Ht]].
    apply filter_In in Ht. destruct Ht as [Ht Tt].
    unfold zseq in Ht. apply in_map_iff in Ht. destruct Ht as [k [<- Hk]].
    apply in_seq in Hk.
    pose proof (strptime_nonneg s1 a H1) as Ha.
    assert (Hz : a + Z.of_nat k <> 0) by (intro Z0; rewrite Z0 in Tt; discriminate).
    exists (a + Z.of_nat k). split; [reflexivity|]. split; [lia|]. split; [exact Tt|].
    intro Hbig. apply strptime_strftime. lia.
Qed.

Lemma get_trading_days_between_spec_witness :
  get_trading_days_between "2026-01-23" "2026-01-28" =
    Ok (map strftime (filter is_trading_day (zseq 739639 (Z.to_nat (739644 - 739639 + 1))))) /\
  forall x, In x (map strftime (filter is_trading_day (zseq 739639 (Z.to_nat (739644 - 739639 + 1))))) ->
    exists t, x = strftime t /\ 739639 <= t <= 739644 /\ is_trading_day t = true /\
      (_ymd2ord 1000 1 1 <= t -> strptime x = Ok t).
Proof.
  apply get_trading_days_between_spec;
    [vm_compute; reflexivity|vm_compute; reflexivity|unfold MAXORDINAL; lia].
Defined.

(** A range that ends on 9999-12-31 makes [get_trading_days_between]
    raise OverflowError: the loop steps past the last date after visiting
    it. *)
Theorem get_trading_days_between_overflow (s1 s2 : string) (a : Z) :
  strptime s1 = Ok a -> strptime s2 = Ok MAXORDINAL ->
  exists m, get_trading_days_between s1 s2 = Raise (OverflowError m).
Proof.
  intros H1 H2. pose proof (strptime_bound s1 a H1) as Ha.
  unfold get_trading_days_between. rewrite H1, H2. cbn [bind].
  apply days_between_loop_overflow; lia.
Qed.

Lemma get_trading_days_between_overflow_witness :
  strptime "9999-12-30" = Ok 3652058 /\ strptime "9999-12-31" = Ok MAXORDINAL /\
  exists m, get_trading_days_between "9999-12-30" "9999-12-31" = Raise (OverflowError m).
Proof.
  assert (H1 : strptime "9999-12-30" = Ok 3652058) by (vm_compute; reflexivity).
  assert (H2 : strptime "9999-12-31" = Ok MAXORDINAL) by (vm_compute; reflexivity).
  split; [exact H1|]. split; [exact H2|].
  exact (get_trading_days_between_overflow _ _ _ H1 H2).
Defined.

Lemma get_previous_trading_day_latest_witness :
  2 <= 739643 <= MAXORDINAL /\
  exists r, get_previous_trading_day 739643 = Ok r /\ r < 739643 /\ is_trading_day r = true /\
            forall y, r < y < 739643 -> is_trading_day y = false.
Proof.
  assert (H : 2 <= 739643 <= MAXORDINAL) by (unfold MAXORDINAL; lia).
  split; [exact H|]. exact (get_previous_trading_day_latest 739643 H).
Defined.

(** [strftime('%Y-%m-%d')] followed by [strptime] gives back the date, for
    every date from 1000-01-01 to 9999-12-31, whose years have four digits. *)
Theorem date_string_roundtrip (d : Z) :
  _ymd2ord 1000 1 1 <= d <= MAXORDINAL -> strptime (strftime d) = Ok d.
Proof.
  intro H. apply strptime_strftime. exact H.
Qed.

Lemma date_string_roundtrip_witness :
  _ymd2ord 1000 1 1 <= 739644 <= MAXORDINAL /\ strptime (strftime 739644) = Ok 739644.
Proof.
  assert (H : _ymd2ord 1000 1 1 <= 739644 <= MAXORDINAL) by (vm_compute; split; discriminate).
  split; [exact H|]. exact (date_string_roundtrip 739644 H).
Defined.

End TradingDays.

(** ** The zone [extract_zones] returns *)

Module DetectorExtra.
Import ZoneDetector Detector.

Lemma find_origin_zone_some self df s oz :
  find_origin_zone self df s = Ok (Some oz) ->
  exists lb, qualifies (zone_window df s lb) (oz_zone_low oz) (oz_zone_high oz).
Proof.
  unfold find_origin_zone. destruct (s <? zone_candles_min self)%nat; [discriminate|].
  destruct (origin_loop_spec df s (lookbacks self s)) as [r [E H]]. rewrite E.
  intro X. injection X as ->. destruct H as [pre [lb [post [_ [_ [Q _]]]]]]. eauto.
Qed.

Lemma qualifies_range w lo hi : qualifies w lo hi -> lo < hi.
Proof.
  intros [_ [_ [_ [_ [_ B]]]]].
  pose proof (Qabs_nonneg (close (last w dflt) - close (hd dflt w))). lra.
Qed.

Lemma impulse_shape self df atr imp :
  find_major_impulse self df atr = Ok (Some imp) ->
  (direction imp = "BULLISH"%string \/ direction imp = "BEARISH"%string) /\
  (strength imp = "HIGH"%string \/ strength imp = "MEDIUM"%string).
Proof.
  intro H. pose proof (impulse_in_scan self df atr imp H) as Hin.
  apply in_scan_pairs in Hin.
  destruct (find_major_impulse_inv self df atr) as [[best mm] [E I]].
  rewrite E in H. cbn [fst] in H. injection H as ->.
  unfold Inv in I. cbn [fst snd] in I. destruct I as [pre [post [_ [Ev [St _]]]]].
  assert (R : (start_idx imp <= end_idx imp < List.length df)%nat) by lia.
  destruct (eval_pair_some self df atr _ _ _ _ R Ev) as [_ [Dd _]].
  split.
  - rewrite Dd. unfold direction_of.
    destruct (Qltb (close (row df (start_idx imp))) _); [left|right]; reflexivity.
  - rewrite St. destruct (Qltb (2 * atr) mm); [left|right]; reflexivity.
Qed.

(** [extract_zones] returns at most one zone; that zone carries the given
    symbol, fetch date and timeframe, has [zone_low < zone_high], a BULLISH
    or BEARISH type (the impulse's direction), a HIGH or MEDIUM strength,
    and the close of the impulse's end candle lies outside it. *)
Theorem extract_zones_output (self : ZoneDetector) (df : list candle)
    (sym fd tf : string) (zs : list zone) :
  extract_zones self df sym fd tf = Ok zs ->
  (List.length zs <= 1)%nat /\
  forall z, In z zs ->
    symbol z = sym /\ fetch_date z = fd /\ timeframe z = tf /\
    zone_low z < zone_high z /\
    (zone_type z = "BULLISH"%string \/ zone_type z = "BEARISH"%string) /\
    (impulse_strength z = "HIGH"%string \/ impulse_strength z = "MEDIUM"%string) /\
    exists imp, find_major_impulse self df (calculate_atr df 14) = Ok (Some imp) /\
      zone_type z = direction imp /\
      (close (row df (end_idx imp)) < zone_low z \/ zone_high z < close (row df (end_idx imp))).
Proof.
  unfold extract_zones. cbv zeta. intro H.
  assert (Nil : zs = [] -> (List.length zs <= 1)%nat /\ forall z, In z zs -> False).
  { intros ->. split; [cbn; lia|]. intros z []. }
  destruct (List.length df <? 20)%nat.
  { injection H as <-. destruct (Nil eq_refl) as [L F]. split; [exact L|]. intros z Hz.
    destruct (F z Hz). }
  destruct (find_major_impulse_ok self df (calculate_atr df 14)) as [ri Ei].
  rewrite Ei in H. cbn [bind] in H.
  destruct ri as [imp|].
  2:{ injection H as <-. split; [cbn; lia|]. intros z []. }
  destruct (find_origin_zone_ok self df (start_idx imp)) as [ro Eo].
  rewrite Eo in H. cbn [bind] in H.
  destruct ro as [oz|].
  2:{ injection H as <-. split; [cbn; lia|]. intros z []. }
  destruct (validate_zone_ok df oz imp) as [b Ev].
  rewrite Ev in H. cbn [bind] in H.
  destruct b; cbn [negb] in H.
  2:{ injection H as <-. split; [cbn; lia|]. intros z []. }
  injection H as <-. split; [cbn; lia|].
  intros z [<-|[]]. cbn [symbol fetch_date timeframe zone_low zone_high zone_type impulse_strength].
  destruct (find_origin_zone_some _ _ _ _ Eo) as [lb Q].
  pose proof (qualifies_range _ _ _ Q) as Rg.
  destruct (impulse_shape _ _ _ _ Ei) as [Dir Str].
  split; [reflexivity|]. split; [reflexivity|]. split; [reflexivity|].
  split; [exact Rg|]. split; [exact Dir|]. split; [exact Str|].
  exists imp. split; [exact Ei|]. split; [reflexivity|].
  unfold validate_zone in Ev.
  destruct (List.length df <=? end_idx imp)%nat eqn:Hl; [discriminate|].
  apply Nat.leb_gt in Hl. rewrite loc_row in Ev by exact Hl. cbn [bind] in Ev.
  destruct (Qltb _ _) eqn:C; [discriminate|]. apply Qltb_false in C.
  set (c := close (row df (end_idx imp))) in *.
  destruct (Qlt_le_dec c (oz_zone_low oz)) as [L1|L1]; [left; exact L1|].
  destruct (Qlt_le_dec (oz_zone_high oz) c) as [L2|L2]; [right; exact L2|].
  exfalso.
  assert (A : Qabs (c - (oz_zone_low oz + oz_zone_high oz) / 2)
              <= (oz_zone_high oz - oz_zone_low oz) / 2).
  { apply Qabs_Qle_condition. clear - L1 L2. unfold Qdiv. change (/ 2) with (1 # 2). split; lra. }
  revert A C Rg. clear. unfold Qdiv. change (/ 2) with (1 # 2). intros. lra.
Qed.

Lemma extract_zones_output_witness :
  extract_zones ZoneDetector_default Samples.df_c2 "X" "2026-01-28" "15minute" = Ok [Samples.zone_c2] /\
  (List.length [Samples.zone_c2] <= 1)%nat /\
  forall z, In z [Samples.zone_c2] ->
    symbol z = "X"%string /\ fetch_date z = "2026-01-28"%string /\ timeframe z = "15minute"%string /\
    zone_low z < zone_high z /\
    (zone_type z = "BULLISH"%string \/ zone_type z = "BEARISH"%string) /\
    (impulse_strength z = "HIGH"%string \/ impulse_strength z = "MEDIUM"%string) /\
    exists imp, find_major_impulse ZoneDetector_default Samples.df_c2
                  (calculate_atr Samples.df_c2 14) = Ok (Some imp) /\
      zone_type z = direction imp /\
      (close (row Samples.df_c2 (end_idx imp)) < zone_low z \/
       zone_high z < close (row Samples.df_c2 (end_idx imp))).
Proof.
  assert (E : extract_zones ZoneDetector_default Samples.df_c2 "X" "2026-01-28" "15minute"
              = Ok [Samples.zone_c2]) by (vm_compute; reflexivity).
  split; [exact E|]. exact (extract_zones_output _ _ _ _ _ _ E).
Defined.

End DetectorExtra.

(** ** [calculate_atr] *)

Module AtrExtra.
Import ZoneDetector Detector.

Lemma fold_Qplus l a : fold_left Qplus l a == a + qsum l.
Proof.
  unfold qsum. revert a. induction l as [|x l IH]; intro a; cbn [fold_left].
  - lra.
  - rewrite (IH (a + x)), (IH (0 + x)). lra.
Qed.

Lemma qsum_cons x l : qsum (x :: l) == x + qsum l.
Proof. unfold qsum at 1. cbn [fold_left]. rewrite fold_Qplus. lra. Qed.

Lemma qsum_nonneg l : (forall x, In x l -> 0 <= x) -> 0 <= qsum l.
Proof.
  induction l as [|x l IH]; intro H.
  - unfold qsum. cbn. lra.
  - rewrite qsum_cons. pose proof (H x (or_introl eq_refl)).
    pose proof (IH (fun y Hy => H y (or_intror Hy))). lra.
Qed.

Lemma qsum_map_le (f g : candle -> Q) l :
  (forall c, In c l -> f c <= g c) -> qsum (map f l) <= qsum (map g l).
Proof.
  induction l as [|c l IH]; intro H; cbn [map].
  - unfold qsum. cbn. lra.
  - rewrite !qsum_cons. pose proof (H c (or_introl eq_refl)).
    pose proof (IH (fun y Hy => H y (or_intror Hy))). lra.
Qed.

Lemma true_ranges_nonneg prev df :
  (forall c, In c df -> low c <= high c) -> forall x, In x (true_ranges prev df) -> 0 <= x.
Proof.
  revert prev. induction df as [|c r IH]; intros prev H x Hx; cbn in Hx.
  - destruct Hx.
  - destruct Hx as [<-|Hx].
    + pose proof (H c (or_introl eq_refl)). unfold true_range. destruct prev.
      * pose proof (Q.le_max_l (high c - low c)
          (Qmax (Qabs (high c - close c0)) (Qabs (low c - close c0)))). lra.
      * lra.
    + exact (IH (Some c) (fun y Hy => H y (or_intror Hy)) x Hx).
Qed.

Lemma div_len_nonneg q n : 0 <= q -> 0 <= q / inject_Z (Z.of_nat n).
Proof.
  intro H. unfold Qdiv. apply Qmult_le_0_compat; [exact H|].
  apply Qinv_le_0_compat. unfold Qle. cbn. lia.
Qed.

Lemma div_len_le p q n : p <= q ->
  p / inject_Z (Z.of_nat n) <= q / inject_Z (Z.of_nat n).
Proof.
  intro H. unfold Qdiv. apply Qmult_le_compat_r; [exact H|].
  apply Qinv_le_0_compat. unfold Qle. cbn. lia.
Qed.

Lemma calculate_atr_value_nonneg (df : list candle) (period : nat) :
  (forall c, In c df -> low c <= high c) -> 0 <= calculate_atr df period.
Proof.
  intro H. unfold calculate_atr. cbv zeta.
  destruct ((0 <? period) && (period <=? List.length (true_ranges None df)))%nat.
  - destruct (skipn _ (true_ranges None df)) as [|x l] eqn:Es; cbn [qmean]; [lra|].
    apply div_len_nonneg, qsum_nonneg. intros y Hy. rewrite <- Es in Hy.
    apply (true_ranges_nonneg None df H).
    rewrite <- (firstn_skipn (List.length (true_ranges None df) - period) (true_ranges None df)).
    apply in_or_app. right. exact Hy.
  - destruct df as [|c r]; cbn [map qmean]; [lra|].
    change (high c :: map high r) with (map high (c :: r)).
    change (low c :: map low r) with (map low (c :: r)).
    rewrite !length_map.
    pose proof (div_len_le _ _ (List.length (c :: r)) (qsum_map_le low high (c :: r) H)). lra.
Qed.

(** When every candle has [low <= high], [self.calculate_atr(df, period)]
    raises IndexError on the empty frame and otherwise returns a
    nonnegative value, for every period (period 0 included, which falls
    back to [mean(high) - mean(low)]). *)
Theorem calculate_atr_nonneg (df : list candle) (period : nat) :
  (forall c, In c df -> low c <= high c) ->
  (df = [] -> calculate_atr_checked df period = Raise IndexError) /\
  (df <> [] -> exists a, calculate_atr_checked df period = Ok a /\ 0 <= a).
Proof.
  intro H. split.
  - intros ->. reflexivity.
  - intro Hne. exists (calculate_atr df period). split.
    + destruct df; [contradiction|reflexivity].
    + apply calculate_atr_value_nonneg, H.
Qed.

Lemma calculate_atr_nonneg_witness :
  (forall c, In c Samples.df_c2 -> low c <= high c) /\
  (exists a, calculate_atr_checked Samples.df_c2 14 = Ok a /\ 0 <= a) /\
  (exists a, calculate_atr_checked Samples.df_c2 0 = Ok a /\ 0 <= a).
Proof.
  assert (F : forallb (fun c => Qle_bool (low c) (high c)) Samples.df_c2 = true)
    by (vm_compute; reflexivity).
  assert (H : forall c, In c Samples.df_c2 -> low c <= high c).
  { intros c Hc. apply Qle_bool_iff. rewrite forallb_forall in F. exact (F c Hc). }
  split; [exact H|]. split.
  - apply (proj2 (calculate_atr_nonneg Samples.df_c2 14 H)). discriminate.
  - apply (proj2 (calculate_atr_nonneg Samples.df_c2 0 H)). discriminate.
Defined.

Lemma length_true_ranges prev df : List.length (true_ranges prev df) = List.length df.
Proof. revert prev. induction df as [|c r IH]; intro prev; cbn; [reflexivity|]. rewrite IH. reflexivity. Qed.

Lemma true_ranges_app prev pre df :
  exists p, true_ranges prev (pre ++ df) = true_ranges prev pre ++ true_ranges p df.
Proof.
  revert prev. induction pre as [|c pre IH]; intro prev.
  - exists prev. reflexivity.
  - destruct (IH (Some c)) as [p E]. exists p. cbn. rewrite E. reflexivity.
Qed.

Lemma skipn_S_tl {A} k (l : list A) : skipn (S k) l = skipn k (tl l).
Proof. destruct l; cbn; [destruct k|]; reflexivity. Qed.

Lemma true_ranges_tl p q df : tl (true_ranges p df) = tl (true_ranges q df).
Proof. destruct df; reflexivity. Qed.

(** [calculate_atr] only looks at the last [period + 1] rows: when the frame
    has more than [period] rows (and [period > 0]), prepending candles does
    not change the result. *)
Theorem calculate_atr_suffix (pre df : list candle) (period : nat) :
  (0 < period < List.length df)%nat ->
  calculate_atr (pre ++ df) period = calculate_atr df period.
Proof.
  intro Hp. unfold calculate_atr. cbv zeta.
  destruct (true_ranges_app None pre df) as [p E]. rewrite E.
  rewrite length_app, !length_true_ranges.
  replace (period <=? List.length pre + List.length df)%nat with true
    by (symmetry; apply Nat.leb_le; lia).
  replace (period <=? List.length df)%nat with true
    by (symmetry; apply Nat.leb_le; lia).
  replace (0 <? period)%nat with true by (symmetry; apply Nat.ltb_lt; lia).
  rewrite skipn_app, skipn_all2 by (rewrite length_true_ranges; lia).
  rewrite length_true_ranges. cbn [app].
  replace (List.length df - period)%nat with (S (List.length df - period - 1)) by lia.
  replace (List.length pre + List.length df - period - List.length pre)%nat
    with (S (List.length df - period - 1)) by lia.
  rewrite !skipn_S_tl, (true_ranges_tl p None). reflexivity.
Qed.

Lemma calculate_atr_suffix_witness :
  (0 < 14 < List.length Samples.df_c2)%nat /\
  calculate_atr (Samples.mk 1 0 1 :: Samples.df_c2) 14 = calculate_atr Samples.df_c2 14.
Proof.
  assert (H : (0 < 14 < List.length Samples.df_c2)%nat) by (vm_compute; lia).
  split; [exact H|]. exact (calculate_atr_suffix [Samples.mk 1 0 1] Samples.df_c2 14 H).
Defined.

End AtrExtra.

(** ** The symbols read from the [symbols] query parameter *)

Module AppExtra.
Import App.
Local Open Scope string_scope.
Local Open Scope nat_scope.

Fixpoint has_char (c : ascii) (s : string) : bool :=
  match s with
  | EmptyString => false
  | String d r => Ascii.eqb d c || has_char c r
  end.

Fixpoint ascii_str (s : string) : bool :=
  match s with
  | EmptyString => true
  | String c r => (nat_of_ascii c <? 128) && ascii_str r
  end.

Lemma upper_char_idem c : upper_char (upper_char c) = upper_char c.
Proof. destruct c as [[] [] [] [] [] [] [] []]; vm_compute; reflexivity. Qed.

Lemma upper_char_space c : is_space (upper_char c) = is_space c.
Proof. destruct c as [[] [] [] [] [] [] [] []]; vm_compute; reflexivity. Qed.

Lemma upper_char_comma c : Ascii.eqb (upper_char c) "," = Ascii.eqb c ",".
Proof. destruct c as [[] [] [] [] [] [] [] []]; vm_compute; reflexivity. Qed.

Lemma upper_idem s : upper (upper s) = upper s.
Proof. induction s as [|c r IH]; cbn; [reflexivity|]. rewrite upper_char_idem, IH. reflexivity. Qed.

Lemma upper_empty s : String.eqb (upper s) "" = String.eqb s "".
Proof. destruct s; reflexivity. Qed.

Lemma upper_lstrip s : upper (lstrip s) = lstrip (upper s).
Proof.
  induction s as [|c r IH]; cbn; [reflexivity|].
  rewrite upper_char_space. destruct (is_space c); [exact IH|reflexivity].
Qed.

Lemma upper_rstrip s : upper (rstrip s) = rstrip (upper s).
Proof.
  induction s as [|c r IH]; cbn; [reflexivity|].
  rewrite upper_char_space, <- IH, upper_empty.
  destruct (is_space c && String.eqb (rstrip r) ""); reflexivity.
Qed.

Lemma upper_strip s : upper (strip s) = strip (upper s).
Proof. unfold strip. rewrite upper_rstrip, upper_lstrip. reflexivity. Qed.

Lemma lstrip_idem s : lstrip (lstrip s) = lstrip s.
Proof.
  induction s as [|c r IH]; cbn; [reflexivity|].
  destruct (is_space c) eqn:E; [exact IH|]. cbn. rewrite E. reflexivity.
Qed.

Lemma rstrip_idem s : rstrip (rstrip s) = rstrip s.
Proof.
  induction s as [|c r IH]; cbn; [reflexivity|].
  destruct (is_space c && String.eqb (rstrip r) "") eqn:E; [reflexivity|].
  cbn. rewrite IH, E. reflexivity.
Qed.

Lemma lstrip_length s : String.length (lstrip s) <= String.length s.
Proof. induction s as [|c r IH]; cbn; [lia|]. destruct (is_space c); cbn; lia. Qed.

Lemma lstrip_rstrip u : lstrip u = u -> lstrip (rstrip u) = rstrip u.
Proof.
  destruct u as [|c r]; [reflexivity|]. cbn. intro H.
  destruct (is_space c) eqn:E.
  - pose proof (lstrip_length r) as L. rewrite H in L. cbn in L. lia.
  - cbn. rewrite E. reflexivity.
Qed.

Lemma strip_idem s : strip (strip s) = strip s.
Proof.
  unfold strip. rewrite lstrip_rstrip by apply lstrip_idem. apply rstrip_idem.
Qed.

Lemma has_char_lstrip c s : has_char c s = false -> has_char c (lstrip s) = false.
Proof.
  induction s as [|d r IH]; cbn; [reflexivity|]. intro H.
  apply orb_false_iff in H as [H1 H2]. destruct (is_space d); [auto|]. cbn. rewrite H1, H2. reflexivity.
Qed.

Lemma has_char_rstrip c s : has_char c s = false -> has_char c (rstrip s) = false.
Proof.
  induction s as [|d r IH]; cbn; [reflexivity|]. intro H.
  apply orb_false_iff in H as [H1 H2].
  destruct (is_space d && String.eqb (rstrip r) ""); [reflexivity|]. cbn. rewrite H1, IH; auto.
Qed.

Lemma has_char_upper s : has_char "," (upper s) = has_char "," s.
Proof. induction s as [|c r IH]; cbn; [reflexivity|]. rewrite upper_char_comma, IH. reflexivity. Qed.

Lemma split_no_sep sep s t : In t (split sep s) -> has_char sep t = false.
Proof.
  revert t. induction s as [|c r IH]; intros t Ht; cbn in Ht.
  - destruct Ht as [<-|[]]. reflexivity.
  - destruct (Ascii.eqb c sep) eqn:E.
    + destruct Ht as [<-|Ht]; [reflexivity|]. exact (IH t Ht).
    + destruct (split sep r) as [|h l] eqn:Es.
      * destruct Ht as [<-|[]]. cbn. rewrite E. reflexivity.
      * destruct Ht as [<-|Ht].
        -- cbn. rewrite E. apply IH. left. reflexivity.
        -- apply IH. right. exact Ht.
Qed.

Lemma split_app sep x s : has_char sep x = false -> split sep (x ++ String sep s) = x :: split sep s.
Proof.
  induction x as [|c x IH]; intro H; cbn.
  - rewrite Ascii.eqb_refl. reflexivity.
  - cbn in H. apply orb_false_iff in H as [H1 H2]. rewrite H1, IH by exact H2. reflexivity.
Qed.

Lemma split_single sep x : has_char sep x = false -> split sep x = [x].
Proof.
  induction x as [|c x IH]; intro H; cbn; [reflexivity|].
  cbn in H. apply orb_false_iff in H as [H1 H2]. rewrite H1, IH by exact H2. reflexivity.
Qed.

Lemma split_join xs : xs <> [] -> (forall x, In x xs -> has_char "," x = false) ->
  split "," (join "," xs) = xs.
Proof.
  induction xs as [|x r IH]; intros Hne H; [congruence|].
  destruct r as [|y r].
  - cbn [join]. apply split_single. apply H. left. reflexivity.
  - change (join "," (x :: y :: r)) with (x ++ String "," (join "," (y :: r))).
    rewrite split_app by (apply H; left; reflexivity).
    rewrite IH; [reflexivity|discriminate|]. intros z Hz. apply H. right. exact Hz.
Qed.

Lemma strip_empty t : String.eqb (strip t) "" = false -> upper (strip t) <> "".
Proof. intros H E. rewrite <- upper_empty, E in H. discriminate. Qed.

(** Every symbol [execute_day_monitor] reads from a 7-bit [symbols] query
    parameter is nonempty, contains no comma, has no surrounding whitespace
    and is in upper case. *)
Theorem parse_symbols_clean (symbols_param : string) :
  ascii_str symbols_param = true ->
  forall x, In x (parse_symbols symbols_param) ->
    x <> "" /\ has_char "," x = false /\ strip x = x /\ upper x = x.
Proof.
  intros _ x Hx. unfold parse_symbols in Hx.
  apply in_map_iff in Hx as [t [<- Ht]]. apply filter_In in Ht as [Ht Hn].
  apply negb_true_iff in Hn.
  split; [exact (strip_empty t Hn)|]. split.
  - rewrite has_char_upper. unfold strip. apply has_char_rstrip, has_char_lstrip.
    exact (split_no_sep "," _ t Ht).
  - split; [rewrite <- upper_strip, strip_idem; reflexivity|apply upper_idem].
Qed.

Lemma parse_symbols_clean_witness :
  ascii_str " reliance, ,tcs ,,INFY" = true /\
  forall x, In x (parse_symbols " reliance, ,tcs ,,INFY") ->
    x <> "" /\ has_char "," x = false /\ strip x = x /\ upper x = x.
Proof.
  assert (H : ascii_str " reliance, ,tcs ,,INFY" = true) by reflexivity.
  split; [exact H|]. exact (parse_symbols_clean _ H).
Defined.

Lemma join_cons_nonempty (x : string) (r : list string) :
  x <> "" -> join "," (x :: r) <> "".
Proof.
  intros Hx. destruct x as [|c t]; [contradiction|].
  destruct r; cbn; discriminate.
Qed.

(** When the [symbols] parameter is the comma-join of comma-free 7-bit
    fields, [execute_day_monitor] takes the decode-list symbols if the join
    is empty; otherwise it monitors the fields, stripped and upper-cased,
    with the blank ones dropped; a nonempty list of fields that are already
    nonempty, stripped and upper case comes back unchanged. *)
Theorem parse_symbols_join (xs decode_list_symbols : list string) :
  (forall x, In x xs -> ascii_str x = true /\ has_char "," x = false) ->
  (join "," xs = "" ->
   execute_day_monitor_symbols (join "," xs) decode_list_symbols = decode_list_symbols) /\
  (join "," xs <> "" ->
   execute_day_monitor_symbols (join "," xs) decode_list_symbols =
     map (fun s => upper (strip s)) (filter (fun s => negb (String.eqb (strip s) "")) xs)) /\
  ((forall x, In x xs -> x <> "" /\ strip x = x /\ upper x = x) -> xs <> [] ->
   execute_day_monitor_symbols (join "," xs) decode_list_symbols = xs).
Proof.
  intro H.
  assert (E : join "," xs <> "" ->
    execute_day_monitor_symbols (join "," xs) decode_list_symbols =
    map (fun s => upper (strip s)) (filter (fun s => negb (String.eqb (strip s) "")) xs)).
  { intro Hne. unfold execute_day_monitor_symbols.
    destruct (String.eqb (join "," xs) "") eqn:Ej;
      [apply String.eqb_eq in Ej; contradiction|].
    destruct xs as [|x r]; [reflexivity|]. unfold parse_symbols.
    rewrite split_join; [reflexivity|discriminate|]. intros z Hz. apply H, Hz. }
  split; [|split; [exact E|]].
  { intro Hj. unfold execute_day_monitor_symbols. rewrite Hj. reflexivity. }
  intros C Hxs. destruct xs as [|x0 r0]; [contradiction|].
  rewrite E; [|apply join_cons_nonempty, (C x0 (or_introl eq_refl))].
  clear E H Hxs. generalize dependent (x0 :: r0). intros xs C.
  induction xs as [|x r IH]; [reflexivity|].
  destruct (C x (or_introl eq_refl)) as [Hne [Hs Hu]].
  cbn [filter]. rewrite Hs.
  destruct (String.eqb x "") eqn:Ex; [apply String.eqb_eq in Ex; contradiction|].
  cbn [negb map]. rewrite Hs, Hu, IH; [reflexivity|]. intros z Hz. apply C. right. exact Hz.
Qed.

Lemma parse_symbols_join_witness :
  (forall x, In x ["RELIANCE"; " tcs"; "  "] -> ascii_str x = true /\ has_char "," x = false) /\
  execute_day_monitor_symbols (join "," ["RELIANCE"; " tcs"; "  "]) ["SBIN"] = ["RELIANCE"; "TCS"] /\
  execute_day_monitor_symbols (join "," ["RELIANCE"; " tcs"; "  "]) ["SBIN"] =
    map (fun s => upper (strip s))
      (filter (fun s => negb (String.eqb (strip s) "")) ["RELIANCE"; " tcs"; "  "]) /\
  execute_day_monitor_symbols (join "," [""]) ["SBIN"] = ["SBIN"].
Proof.
  assert (H : forall x, In x ["RELIANCE"; " tcs"; "  "] -> ascii_str x = true /\ has_char "," x = false).
  { intros x [<-|[<-|[<-|[]]]]; split; reflexivity. }
  assert (H0 : forall x, In x [""] -> ascii_str x = true /\ has_char "," x = false).
  { intros x [<-|[]]; split; reflexivity. }
  split; [exact H|]. split; [vm_compute; reflexivity|]. split.
  - apply (proj1 (proj2 (parse_symbols_join _ ["SBIN"] H))). cbn. discriminate.
  - apply (proj1 (parse_symbols_join _ ["SBIN"] H0)). reflexivity.
Defined.

Fixpoint count_char (c : ascii) (s : string) : nat :=
  match s with
  | EmptyString => 0
  | String d r => (if Ascii.eqb d c then 1 else 0) + count_char c r
  end.

Lemma has_char_count c s : has_char c s = false <-> count_char c s = 0.
Proof.
  induction s as [|d r IH]; cbn; [tauto|].
  destruct (Ascii.eqb d c); cbn; [split; discriminate|exact IH].
Qed.

Lemma length_split sep s : List.length (split sep s) = S (count_char sep s).
Proof.
  induction s as [|c r IH]; cbn; [reflexivity|].
  destruct (Ascii.eqb c sep); cbn; [rewrite IH; reflexivity|].
  destruct (split sep r) as [|h t] eqn:E; cbn in IH |- *; [discriminate|exact IH].
Qed.

Lemma count_app c a b : count_char c (a ++ b) = count_char c a + count_char c b.
Proof. induction a as [|d r IH]; cbn; [reflexivity|]. rewrite IH. lia. Qed.

Definition count_all (xs : list string) : nat :=
  fold_right (fun x n => count_char "," x + n) 0 xs.

Lemma count_join xs : xs <> [] ->
  count_char "," (join "," xs) + 1 = count_all xs + List.length xs.
Proof.
  unfold count_all. induction xs as [|x r IH]; intro Hne; [congruence|].
  destruct r as [|y r]; [cbn [join fold_right List.length]; lia|].
  change (join "," (x :: y :: r)) with (x ++ String "," (join "," (y :: r))).
  rewrite count_app. cbn [count_char]. rewrite Ascii.eqb_refl.
  assert (N : y :: r <> []) by discriminate. specialize (IH N).
  cbn [fold_right List.length] in IH |- *. lia.
Qed.

Lemma count_all_zero xs : count_all xs = 0 -> forall x, In x xs -> count_char "," x = 0.
Proof.
  unfold count_all. induction xs as [|y r IH]; cbn [fold_right In]; intros H x Hx; [destruct Hx|].
  destruct Hx as [<-|Hx]; [lia|]. apply IH; [lia|exact Hx].
Qed.

(** A watchlist saved with a nonempty symbol list loads back as the same list
    exactly when no symbol contains a comma; a symbol with a comma comes back
    split into several. *)
Theorem watchlist_symbols_roundtrip (symbols : list string) :
  symbols <> [] ->
  (load_watchlist_symbols (save_watchlist_symbols symbols) = symbols <->
   forall x, In x symbols -> has_char "," x = false).
Proof.
  intro Hne. unfold load_watchlist_symbols, save_watchlist_symbols. split.
  - intros E x Hx. apply has_char_count.
    pose proof (f_equal (@List.length string) E) as L. rewrite length_split in L.
    pose proof (count_join symbols Hne) as C.
    apply (count_all_zero symbols); [lia|exact Hx].
  - intro H. apply split_join; assumption.
Qed.

Lemma watchlist_symbols_roundtrip_witness :
  ["RELIANCE"; "TCS"] <> [] /\
  (load_watchlist_symbols (save_watchlist_symbols ["RELIANCE"; "TCS"]) = ["RELIANCE"; "TCS"] <->
   forall x, In x ["RELIANCE"; "TCS"] -> has_char "," x = false).
Proof.
  assert (H : ["RELIANCE"; "TCS"] <> []) by discriminate.
  split; [exact H|]. exact (watchlist_symbols_roundtrip _ H).
Defined.

End AppExtra.

(** ** [get_monitoring_data] *)

Module MonitoringExtra.
Import DateManager Monitoring.

Lemma build_monitoring_data_spec self zones_of price_data fetch_day execute_day symbols data :
  build_monitoring_data self zones_of price_data fetch_day execute_day symbols = Ok data ->
  map mr_symbol data = filter (fun s => negb (Qeq_bool (dict_get price_data s 0) 0)) symbols /\
  forall m, In m data ->
    mr_ltp m = dict_get price_data (mr_symbol m) 0 /\ ~ mr_ltp m == 0 /\
    mr_zones m = zones_of (mr_symbol m) /\
    mr_fetch_date m = fetch_day /\ mr_execute_date m = execute_day /\
    _calculate_proximity self (mr_ltp m) (mr_zones m) =
      Ok (mr_status m, mr_closest_zone m, mr_distance_percent m, mr_reaction m).
Proof.
  revert data. induction symbols as [|s rest IH]; intros data E; cbn in E.
  - injection E as <-. split; [reflexivity|]. intros m [].
  - cbn [filter]. destruct (Qeq_bool (dict_get price_data s 0) 0) eqn:Z0.
    + cbn [negb]. exact (IH data E).
    + destruct (_calculate_proximity self _ _) as [[[[st cz] d] r]|e] eqn:P; [|discriminate].
      cbn [bind] in E.
      destruct (build_monitoring_data self zones_of price_data fetch_day execute_day rest)
        as [data'|e] eqn:B; [|discriminate].
      cbn [bind] in E. injection E as <-.
      destruct (IH data' eq_refl) as [Hm Hall]. cbn [negb map]. rewrite Hm.
      split; [reflexivity|]. intros m [<-|Hin]; [|exact (Hall m Hin)].
      cbn. split; [reflexivity|]. split.
      * intro C. apply Qeq_bool_iff in C. congruence.
      * split; [reflexivity|]. split; [reflexivity|]. split; [reflexivity|]. exact P.
Qed.

Lemma validate_execute_day_valid today execute_day fd err :
  validate_execute_day today execute_day = Ok (true, Some fd, err) ->
  calculate_fetch_day execute_day = Ok fd /\ (exists f, strptime fd = Ok f /\ (f <= today)%Z).
Proof.
  unfold validate_execute_day.
  destruct (strptime execute_day) as [x|e] eqn:S1; cbn [bind].
  2:{ destruct e; discriminate. }
  destruct (calculate_fetch_day execute_day) as [f|e] eqn:F; cbn [bind].
  2:{ destruct e; discriminate. }
  destruct (strptime f) as [fd'|e] eqn:S2; cbn [bind].
  2:{ destruct e; discriminate. }
  destruct (Z.ltb today fd') eqn:L; [discriminate|].
  intro H. injection H as -> _. split; [reflexivity|].
  exists fd'. split; [exact S2|]. apply Z.ltb_ge in L. exact L.
Qed.

(** A successful [get_monitoring_data] reports the Execute Day it was given
    and the Fetch Day [calculate_fetch_day] computes for it, which is not
    after [today]; it has one record per symbol whose price is present and
    nonzero, in the order of [symbols]; each record carries that price, the
    symbol's Fetch Day zones, both dates, and the result of
    [_calculate_proximity] on them. The price dictionary is the live one when
    the Execute Day is [today] and the historical one otherwise. *)
Theorem get_monitoring_data_success (self : ExecuteDayMonitor) (today : Z)
    (zones_of : string -> list zone) (ltp_data historical_prices : list (string * Q))
    (execute_day : string) (symbols : list string)
    (data : list MonitoringRecord) (fd ed : string) :
  get_monitoring_data self today zones_of ltp_data historical_prices execute_day symbols =
    Ok (MonitoringSuccess data fd ed) ->
  ed = execute_day /\ calculate_fetch_day execute_day = Ok fd /\
  (exists f, strptime fd = Ok f /\ (f <= today)%Z) /\
  exists execute_dt, strptime execute_day = Ok execute_dt /\
    let price_data := if Z.eqb execute_dt today then ltp_data else historical_prices in
    map mr_symbol data = filter (fun s => negb (Qeq_bool (dict_get price_data s 0) 0)) symbols /\
    forall m, In m data ->
      mr_ltp m = dict_get price_data (mr_symbol m) 0 /\ ~ mr_ltp m == 0 /\
      mr_zones m = zones_of (mr_symbol m) /\
      mr_fetch_date m = fd /\ mr_execute_date m = execute_day /\
      _calculate_proximity self (mr_ltp m) (mr_zones m) =
        Ok (mr_status m, mr_closest_zone m, mr_distance_percent m, mr_reaction m).
Proof.
  unfold get_monitoring_data.
  destruct (validate_execute_day today execute_day) as [[[b f] err]|e] eqn:V; cbn [bind];
    [|discriminate].
  destruct b; [|discriminate]. destruct f as [f|]; [|discriminate].
  destruct (strptime execute_day) as [x|e] eqn:S; cbn [bind]; [|discriminate].
  destruct (build_monitoring_data _ _ _ _ _ _) as [data'|e] eqn:B; cbn [bind]; [|discriminate].
  intro H. injection H as <- <- <-.
  destruct (validate_execute_day_valid _ _ _ _ V) as [F T].
  split; [reflexivity|]. split; [exact F|]. split; [exact T|].
  exists x. split; [reflexivity|]. exact (build_monitoring_data_spec _ _ _ _ _ _ _ B).
Qed.

Definition sample_zone : zone := Proximity.mk_zone "BULLISH" 700 720.

Definition sample_record : MonitoringRecord :=
  {| mr_symbol := "A"; mr_ltp := 705; mr_zones := [sample_zone]; mr_status := "INSIDE_BULLISH";
     mr_closest_zone := Some sample_zone; mr_distance_percent := Some (-2000 # 2840);
     mr_reaction := "Holding"; mr_fetch_date := "2026-01-28"; mr_execute_date := "2026-01-30" |}%string.

Lemma get_monitoring_data_success_witness :
  get_monitoring_data ExecuteDayMonitor_init 739649 (fun _ => [sample_zone])
    [("A"%string, 705)] [("A"%string, 705); ("B"%string, 0)] "2026-01-30" ["A"; "B"; "C"]%string =
    Ok (MonitoringSuccess [sample_record] "2026-01-28" "2026-01-30") /\
  calculate_fetch_day "2026-01-30" = Ok "2026-01-28"%string.
Proof.
  assert (E : get_monitoring_data ExecuteDayMonitor_init 739649 (fun _ => [sample_zone])
    [("A"%string, 705)] [("A"%string, 705); ("B"%string, 0)] "2026-01-30" ["A"; "B"; "C"]%string =
    Ok (MonitoringSuccess [sample_record] "2026-01-28" "2026-01-30")) by (vm_compute; reflexivity).
  split; [exact E|]. exact (proj1 (proj2 (get_monitoring_data_success _ _ _ _ _ _ _ _ _ _ E))).
Defined.

(** An Execute Day that [strptime] rejects makes [get_monitoring_data] return
    a failure carrying the "Invalid date format" message, not raise. *)
Theorem get_monitoring_data_bad_date (self : ExecuteDayMonitor) (today : Z)
    (zones_of : string -> list zone) (ltp_data historical_prices : list (string * Q))
    (execute_day : string) (symbols : list string) (e : exn) :
  strptime execute_day = Raise e ->
  exists msg, e = ValueError msg /\
    get_monitoring_data self today zones_of ltp_data historical_prices execute_day symbols =
      Ok (MonitoringFailure (Some ("Invalid date format: " ++ msg)%string)).
Proof.
  intro S. destruct (Calendar.strptime_raise _ _ S) as [msg ->].
  exists msg. split; [reflexivity|].
  unfold get_monitoring_data, validate_execute_day. rewrite S. reflexivity.
Qed.

Lemma get_monitoring_data_bad_date_witness :
  strptime "2026-02-30" = Raise (ValueError "day is out of range for month") /\
  get_monitoring_data ExecuteDayMonitor_init 739649 (fun _ => [sample_zone]) [] []
    "2026-02-30" ["A"]%string =
    Ok (MonitoringFailure (Some "Invalid date format: day is out of range for month"%string)).
Proof.
  assert (S : strptime "2026-02-30" = Raise (ValueError "day is out of range for month"))
    by (vm_compute; reflexivity).
  split; [exact S|].
  destruct (get_monitoring_data_bad_date ExecuteDayMonitor_init 739649 (fun _ => [sample_zone])
              [] [] "2026-02-30" ["A"]%string _ S) as [msg [M E]].
  injection M as <-. exact E.
Defined.

End MonitoringExtra.
